(** * gen_icons.py: application icons with a rounded-rectangle background

    A shallow embedding of [scripts/gen_icons.py] and the properties of its
    specification.  The script is a short sequence of calls into two
    libraries: Python's own ([int], [float], [pathlib], [print]) and the
    Pillow imaging library.  The embedding keeps that shape:

    - Python's numbers are modelled exactly: [int] is [Z], [float] is IEEE 754
      binary64 through the Standard Library's [SpecFloat];
    - the file system and the standard output are an explicit [World] that a
      small state-and-exception monad threads through the program;
    - Pillow is an interface ([Pillow]) together with the laws the proofs
      rely on ([PillowLaws]); a small executable instance shows the laws
      can be met and lets the program run on concrete inputs. *)

From Stdlib Require Import ZArith List Lia Bool.
From Stdlib Require Import Floats.SpecFloat Strings.Byte.
From stdpp Require Import gmap strings list pretty.

Local Open Scope Z_scope.

(** ** Python exceptions and results *)

Inductive Exn :=
  | OverflowError
  | ValueError
  | IndexError
  | FileNotFoundError
  | FileExistsError
  | NotADirectoryError
  | IsADirectoryError
  | UnidentifiedImageError.

Inductive Result (A : Type) :=
  | Ok (a : A)
  | Raise (e : Exn).

Arguments Ok {A} a.
Arguments Raise {A} e.

(** ** Python numbers *)

Module Py.

(** Python's [float] is binary64: 53 bits of precision, exponents below 1024. *)
Definition prec : Z := 53.
Definition emax : Z := 1024.

Definition float := spec_float.

(** [float(n)] for an [int]: the nearest binary64 (ties to even);
    an [int] beyond the range raises. *)
Definition float_of_int (n : Z) : Result float :=
  match binary_normalize prec emax n 0 false with
  | S754_infinity _ => Raise OverflowError
  | x => Ok x
  end.

(** [n * x] with [n] an [int] and [x] a [float]: [n] is converted, then the
    product is rounded once. *)
Definition int_mul_float (n : Z) (x : float) : Result float :=
  match float_of_int n with
  | Ok y => Ok (SFmul prec emax y x)
  | Raise e => Raise e
  end.

(** The integer part of [m * 2^e], for a positive mantissa. *)
Definition trunc_pos (m : positive) (e : Z) : Z :=
  if 0 <=? e then Z.shiftl (Z.pos m) e else Z.shiftr (Z.pos m) (- e).

(** [int(x)]: truncation toward zero. *)
Definition int (x : float) : Result Z :=
  match x with
  | S754_zero _ => Ok 0
  | S754_finite s m e => Ok (cond_Zopp s (trunc_pos m e))
  | S754_infinity _ => Raise OverflowError
  | S754_nan => Raise ValueError
  end.

(** [round(x)] with one argument: the nearest integer, ties to even. *)
Definition round_pos (m : positive) (e : Z) : Z :=
  if 0 <=? e then Z.shiftl (Z.pos m) e
  else
    let q := Z.shiftr (Z.pos m) (- e) in
    let r := Z.pos m - Z.shiftl q (- e) in
    match 2 * r ?= Z.shiftl 1 (- e) with
    | Lt => q
    | Gt => q + 1
    | Eq => if Z.even q then q else q + 1
    end.

Definition round (x : float) : Result Z :=
  match x with
  | S754_zero _ => Ok 0
  | S754_finite s m e => Ok (cond_Zopp s (round_pos m e))
  | S754_infinity _ => Raise OverflowError
  | S754_nan => Raise ValueError
  end.

(** The binary64 value of a decimal literal [num / den]: the parser rounds
    the literal to the nearest float, as a correctly rounded division
    does. *)
Definition literal (num den : Z) : float :=
  SFdiv prec emax (binary_normalize prec emax num 0 false)
                  (binary_normalize prec emax den 0 false).

End Py.

(** ** The script's constants *)

Definition BG_COLOR : list Z := [30; 41; 59].

(** [0.164] is [0x1.4fdf3b645a1cbp-3]. *)
Definition CORNER_RADIUS_RATIO : Py.float :=
  S754_finite false 5908722711110091 (-55).

(** [0.05] is [0x1.999999999999ap-5]. *)
Definition LOGO_PADDING_RATIO : Py.float :=
  S754_finite false 7205759403792794 (-57).

(** [radius = int(size * CORNER_RADIUS_RATIO)], line 29. *)
Definition radius (size : Z) : Result Z :=
  match Py.int_mul_float size CORNER_RADIUS_RATIO with
  | Ok x => Py.int x
  | Raise e => Raise e
  end.

(** [padding = int(size * LOGO_PADDING_RATIO)], line 30. *)
Definition padding (size : Z) : Result Z :=
  match Py.int_mul_float size LOGO_PADDING_RATIO with
  | Ok x => Py.int x
  | Raise e => Raise e
  end.

(** What the specification's step 1 describes: nearest-integer rounding of
    the same products. *)
Definition rounded_ratio (size : Z) (ratio : Py.float) : Result Z :=
  match Py.int_mul_float size ratio with
  | Ok x => Py.round x
  | Raise e => Raise e
  end.

(** Bounded exhaustive checking over [z .. z + n - 1]. *)
Fixpoint all_from (n : nat) (z : Z) (P : Z -> bool) : bool :=
  match n with
  | O => true
  | S k => P z && all_from k (z + 1) P
  end.

Definition all_below (bound : Z) (P : Z -> bool) : bool :=
  all_from (Z.to_nat bound) 0 P.

Definition result_eqb (r : Result Z) (v : Z) : bool :=
  match r with Ok z => z =? v | Raise _ => false end.

(** ** Images

    A Pillow image: a mode, a size, and one byte per band and pixel.
    [im_band im b x y] is the value of band [b] at column [x], row [y]. *)

Inductive Mode := L | LA | P | RGB | RGBA.

Inductive Format := PNG | ICO | ICNS.

Record Image := mkImage {
  im_mode : Mode;
  im_width : Z;
  im_height : Z;
  im_band : nat -> Z -> Z -> Z
}.

Definition im_size (im : Image) : Z * Z := (im_width im, im_height im).

(** [Image.new(mode, size, color)]: every pixel is [color]. *)
Definition Image_new (mode : Mode) (size : Z * Z) (color : list Z) : Image :=
  mkImage mode (fst size) (snd size) (fun b _ _ => nth b color 0).

(** The band a mask is read from: the image itself for ["L"], the alpha
    band for ["RGBA"] and ["LA"]. *)
Definition mask_band (m : Mode) : nat :=
  match m with
  | RGBA => 3%nat
  | LA => 1%nat
  | _ => 0%nat
  end.

Definition mask_value (mask : Image) (x y : Z) : Z :=
  im_band mask (mask_band (im_mode mask)) x y.

(** The alpha band of an ["RGBA"] image. *)
Definition alpha (im : Image) (x y : Z) : Z := im_band im 3%nat x y.

(** ** The Pillow interface

    The library calls of the script.  Images are values here: a call that
    mutates its receiver in Python ([paste], [rounded_rectangle]) returns the
    new image. *)

Class Pillow := {
  (** [ImageDraw.Draw(im).rounded_rectangle(xy, radius, fill=fill)] *)
  rounded_rectangle : Image -> Z * Z * Z * Z -> Z -> Z -> Image;
  (** [im.resize(size, Image.LANCZOS)] *)
  resize : Image -> Z * Z -> Image;
  (** [im.thumbnail(size, Image.LANCZOS)], used by the ICO writer *)
  thumbnail : Image -> Z * Z -> Image;
  (** [im.paste(src, box, mask)] *)
  paste : Image -> Image -> Z * Z -> Image -> Image;
  (** [im.convert(mode)] *)
  convert : Image -> Mode -> Image;
  (** the decoder behind [Image.open] *)
  decode : list byte -> option Image;
  (** the encoders behind [im.save] *)
  encode : Format -> list Image -> list byte
}.

(** How far column (or row) [x] of a canvas of side [n] reaches into the
    corner zone of the full-frame rounded rectangle of radius [R]: the two
    corner circles are centred on columns [R] and [n - 1 - R]. *)
Definition corner_depth (n R x : Z) : Z := Z.max (R - x) (x - (n - 1 - R)).

(** The source pixels [u] that Lanczos resampling from [n_in] to [n_out]
    pixels may read for the output pixel [x]: those whose centre lies within
    [3 * max (n_in / n_out) 1 + 1] of the centre of [x], in source units. *)
Definition in_window (n_in n_out x u : Z) : Prop :=
  Z.abs ((2 * u + 1) * n_out - (2 * x + 1) * n_in)
    <= 6 * Z.max n_in n_out + 2 * n_out.

(** The paste box of a source image pasted at [(ox, oy)]. *)
Definition in_box (src : Image) (off : Z * Z) (x y : Z) : Prop :=
  fst off <= x < fst off + im_width src /\ snd off <= y < snd off + im_height src.

(** What the proofs assume of Pillow.  Each law is a bound the library
    meets with room to spare: the rasteriser may place the boundary pixels
    of an arc as it likes (the laws speak only of pixels a full pixel off the
    ideal circle), the resampler may weigh its window as it likes (the laws
    speak only of windows that are constant), and [paste] may mix partly
    covered pixels as it likes (the laws speak only of mask values 0 and
    255). *)
Class PillowLaws (Pil : Pillow) : Prop := {
  (** drawing keeps the canvas *)
  rounded_rectangle_mode im box R fill :
    im_mode (rounded_rectangle im box R fill) = im_mode im;
  rounded_rectangle_width im box R fill :
    im_width (rounded_rectangle im box R fill) = im_width im;
  rounded_rectangle_height im box R fill :
    im_height (rounded_rectangle im box R fill) = im_height im;
  (** the full-frame rounded rectangle with four separate corners leaves the
      pixels beyond the corner arcs as they were ... *)
  rounded_rectangle_outside im n R fill x y :
    im_width im = n -> im_height im = n ->
    0 < R -> 2 * R < n - 2 ->
    0 <= x < n -> 0 <= y < n ->
    0 < corner_depth n R x -> 0 < corner_depth n R y ->
    (R + 1) ^ 2 <= corner_depth n R x ^ 2 + corner_depth n R y ^ 2 ->
    im_band (rounded_rectangle im (0, 0, n - 1, n - 1) R fill) 0%nat x y
    = im_band im 0%nat x y;
  (** ... and fills the pixels within them *)
  rounded_rectangle_inside im n R fill x y :
    im_width im = n -> im_height im = n ->
    0 < R -> 2 * R < n - 2 ->
    0 <= x < n -> 0 <= y < n ->
    (corner_depth n R x < 0 \/ corner_depth n R y < 0 \/
     corner_depth n R x ^ 2 + corner_depth n R y ^ 2 <= (R - 1) ^ 2) ->
    im_band (rounded_rectangle im (0, 0, n - 1, n - 1) R fill) 0%nat x y = fill;
  (** resizing yields the requested size in the same mode *)
  resize_mode im size : im_mode (resize im size) = im_mode im;
  resize_width im w h : 0 < w -> 0 < h -> im_width (resize im (w, h)) = w;
  resize_height im w h : 0 < w -> 0 < h -> im_height (resize im (w, h)) = h;
  (** an output pixel whose window is all zero is zero *)
  resize_window_zero im w h b x y :
    0 < w -> 0 < h -> 0 < im_width im -> 0 < im_height im ->
    0 <= x < w -> 0 <= y < h ->
    (forall u v, 0 <= u < im_width im -> 0 <= v < im_height im ->
                 in_window (im_width im) w x u -> in_window (im_height im) h y v ->
                 im_band im b u v = 0) ->
    im_band (resize im (w, h)) b x y = 0;
  (** for moderate reductions, a constant window gives that constant *)
  resize_window_const im w h b x y c :
    0 < w -> 0 < h -> 0 <= x < w -> 0 <= y < h ->
    w <= im_width im <= 16 * w -> h <= im_height im <= 16 * h ->
    0 <= c <= 255 ->
    (forall u v, 0 <= u < im_width im -> 0 <= v < im_height im ->
                 in_window (im_width im) w x u -> in_window (im_height im) h y v ->
                 im_band im b u v = c) ->
    im_band (resize im (w, h)) b x y = c;
  (** pasting keeps the destination's mode and size *)
  paste_mode dst src off mask : im_mode (paste dst src off mask) = im_mode dst;
  paste_width dst src off mask : im_width (paste dst src off mask) = im_width dst;
  paste_height dst src off mask : im_height (paste dst src off mask) = im_height dst;
  (** pixels outside the box are untouched *)
  paste_outside dst src off mask b x y :
    ~ in_box src off x y ->
    im_band (paste dst src off mask) b x y = im_band dst b x y;
  (** inside the box a zero mask keeps the destination pixel ... *)
  paste_transparent dst src off mask b x y :
    im_size mask = im_size src ->
    0 <= x < im_width dst -> 0 <= y < im_height dst ->
    in_box src off x y ->
    mask_value mask (x - fst off) (y - snd off) = 0 ->
    im_band (paste dst src off mask) b x y = im_band dst b x y;
  (** ... and a full mask takes the source pixel *)
  paste_opaque dst src off mask b x y :
    im_mode src = im_mode dst ->
    im_size mask = im_size src ->
    0 <= x < im_width dst -> 0 <= y < im_height dst ->
    in_box src off x y ->
    mask_value mask (x - fst off) (y - snd off) = 255 ->
    im_band (paste dst src off mask) b x y
    = im_band src b (x - fst off) (y - snd off);
  (** conversion changes the mode only *)
  convert_mode im m : im_mode (convert im m) = m;
  convert_width im m : im_width (convert im m) = im_width im;
  convert_height im m : im_height (convert im m) = im_height im
}.

(** ** The world: files, directories, and what the run did

    A path is the list of its components, innermost first, so that the
    parent of a path is its tail and the root is [[]]. *)

Abbreviation Path := (list string).

Definition child (p : Path) (name : string) : Path := name :: p.
Infix "//" := child (at level 40, left associativity).

Inductive Event :=
  | EMkdir (p : Path)
  | EOpen (p : Path)
  | ESave (p : Path) (fmt : Format) (im : Image)
          (sizes : list (Z * Z)) (append_images : list Image)
  | EPrint (line : string).

(** [log] holds the events of the run, the most recent first. *)
Record World := mkWorld {
  files : gmap Path (list byte);
  dirs : gset Path;
  log : list Event
}.

Definition is_dir (p : Path) (w : World) : bool :=
  match p with
  | [] => true
  | _ => bool_decide (p ∈ dirs w)
  end.

Definition is_file (p : Path) (w : World) : bool :=
  bool_decide (is_Some (files w !! p)).

(** ** Computations that read and write the world and may raise *)

Definition M (A : Type) : Type := World -> Result A * World.

Definition ret {A} (a : A) : M A := fun w => (Ok a, w).

Definition bind {A B} (m : M A) (k : A -> M B) : M B :=
  fun w =>
    match m w with
    | (Ok a, w') => k a w'
    | (Raise e, w') => (Raise e, w')
    end.

Definition lift {A} (r : Result A) : M A := fun w => (r, w).

Notation "'do' x <- m ; k" := (bind m (fun x => k))
  (at level 10, x name, m at level 100, k at level 200).
Notation "'exec' m ; k" := (bind m (fun _ => k))
  (at level 10, m at level 100, k at level 200).

(** [for x in l: body(x)] *)
Fixpoint for_each {A} (l : list A) (body : A -> M unit) : M unit :=
  match l with
  | [] => ret tt
  | x :: rest => exec body x; for_each rest body
  end.

(** [[f(x) for x in l]] *)
Fixpoint map_M {A B} (f : A -> M B) (l : list A) : M (list B) :=
  match l with
  | [] => ret []
  | x :: rest => do y <- f x; do ys <- map_M f rest; ret (y :: ys)
  end.

Definition emit (e : Event) : M unit :=
  fun w => (Ok tt, mkWorld (files w) (dirs w) (e :: log w)).

(** [print(line)] *)
Definition print (line : string) : M unit := emit (EPrint line).

(** [os.mkdir(p)] *)
Definition os_mkdir (p : Path) : M unit :=
  fun w =>
    match p with
    | [] => (Raise FileExistsError, w)
    | _ :: parent =>
        if is_dir p w || is_file p w then (Raise FileExistsError, w)
        else if is_dir parent w then
          (Ok tt, mkWorld (files w) ({[p]} ∪ dirs w) (log w))
        else if is_file parent w then (Raise NotADirectoryError, w)
        else (Raise FileNotFoundError, w)
    end.

(** [p.mkdir(parents=False, exist_ok=True)]: an existing directory is
    accepted, a missing parent is not. *)
Definition mkdir_exist_ok (p : Path) : M unit :=
  fun w =>
    match os_mkdir p w with
    | (Ok u, w') => (Ok u, w')
    | (Raise FileNotFoundError, w') => (Raise FileNotFoundError, w')
    | (Raise e, w') => if is_dir p w' then (Ok tt, w') else (Raise e, w')
    end.

(** [p.mkdir(parents=True, exist_ok=True)]: as above, but a missing parent
    is created first, in the same way. *)
Fixpoint mkdir_parents (p : Path) : M unit :=
  fun w =>
    match os_mkdir p w with
    | (Ok u, w') => (Ok u, w')
    | (Raise FileNotFoundError, w') =>
        match p with
        | [] => (Raise FileNotFoundError, w')
        | _ :: parent =>
            match mkdir_parents parent w' with
            | (Ok _, w'') => mkdir_exist_ok p w''
            | (Raise e, w'') => (Raise e, w'')
            end
        end
    | (Raise e, w') => if is_dir p w' then (Ok tt, w') else (Raise e, w')
    end.

Definition Path_mkdir (p : Path) : M unit :=
  exec emit (EMkdir p); mkdir_parents p.

(** [sorted(set(sizes))] on pairs. *)
Definition size_ltb (a b : Z * Z) : bool :=
  (fst a <? fst b) || ((fst a =? fst b) && (snd a <? snd b)).

Definition size_eqb (a b : Z * Z) : bool :=
  (fst a =? fst b) && (snd a =? snd b).

Fixpoint insert_size (a : Z * Z) (l : list (Z * Z)) : list (Z * Z) :=
  match l with
  | [] => [a]
  | b :: rest =>
      if size_eqb a b then l
      else if size_ltb a b then a :: l
      else b :: insert_size a rest
  end.

Definition sorted_set (l : list (Z * Z)) : list (Z * Z) :=
  fold_right insert_size [] l.

(** [', '.join(l)] *)
Fixpoint join (sep : string) (l : list string) : string :=
  match l with
  | [] => ""
  | [s] => s
  | s :: rest => s +:+ sep +:+ join sep rest
  end.

Section Script.

Context {Pil : Pillow}.

(** [Path(__file__).resolve().parent.parent] *)
Variable ROOT : Path.

Definition LOGO_PATH : Path := ROOT // "assets" // "logo.png".
Definition ICONS_DIR : Path := ROOT // "src-tauri" // "icons".

(** [Image.open(p)] *)
Definition Image_open (p : Path) : M Image :=
  exec emit (EOpen p);
  fun w =>
    match files w !! p with
    | Some bytes =>
        match decode bytes with
        | Some im => (Ok im, w)
        | None => (Raise UnidentifiedImageError, w)
        end
    | None =>
        if is_dir p w then (Raise IsADirectoryError, w)
        else (Raise FileNotFoundError, w)
    end.

(** The images an ICO file embeds: for each requested size, in ascending
    order and at most 256 pixels and the size of the base image, the
    supplied image of that size if there is one, else the base image
    scaled down. *)
Definition ico_frames (im : Image) (sizes : list (Z * Z))
    (append_images : list Image) : list Image :=
  let provided := im :: append_images in
  flat_map
    (fun size =>
       if (fst size >? im_width im) || (snd size >? im_height im)
          || (fst size >? 256) || (snd size >? 256)
       then []
       else match List.find (fun q => size_eqb (im_size q) size) provided with
            | Some q => [q]
            | None => [thumbnail im size]
            end)
    (sorted_set sizes).

Definition frames (fmt : Format) (im : Image) (sizes : list (Z * Z))
    (append_images : list Image) : list Image :=
  match fmt with
  | ICO => ico_frames im sizes append_images
  | _ => [im]
  end.

(** [im.save(p, format=fmt, sizes=sizes, append_images=append_images)] *)
Definition Image_save (im : Image) (p : Path) (fmt : Format)
    (sizes : list (Z * Z)) (append_images : list Image) : M unit :=
  fun w =>
    if is_dir p w then (Raise IsADirectoryError, w)
    else if negb (is_dir (tail p) w) then (Raise FileNotFoundError, w)
    else (Ok tt,
          mkWorld (<[p := encode fmt (frames fmt im sizes append_images)]> (files w))
                  (dirs w)
                  (ESave p fmt im sizes append_images :: log w)).

(** Lines 16-24. *)
Definition rounded_rect_mask (size radius : Z) : Image :=
  let scale := 4 in
  let large := size * scale in
  let large_radius := radius * scale in
  let mask := Image_new L (large, large) [0] in
  let mask := rounded_rectangle mask (0, 0, large - 1, large - 1) large_radius 255 in
  resize mask (size, size).

(** Lines 27-45. *)
Definition generate_icon (size : Z) : M Image :=
  do radius <- lift (radius size);
  do padding <- lift (padding size);
  let bg := Image_new RGBA (size, size) [0; 0; 0; 0] in
  let colored := Image_new RGBA (size, size) (BG_COLOR ++ [255]) in
  let mask := rounded_rect_mask size radius in
  let bg := paste bg colored (0, 0) mask in
  do opened <- Image_open LOGO_PATH;
  let logo := convert opened RGBA in
  let logo_size := size - 2 * padding in
  let logo_resized := resize logo (logo_size, logo_size) in
  let bg := paste bg logo_resized (padding, padding) logo_resized in
  ret bg.

Definition png_sizes : list (string * Z) :=
  [ ("32x32.png", 32);
    ("64x64.png", 64);
    ("128x128.png", 128);
    ("128x128@2x.png", 256);
    ("512x512.png", 512);
    ("icon.png", 512) ].

Definition ico_sizes : list Z := [256; 64; 48; 32; 24; 16].

Definition size_label (s : Z) : string := pretty s +:+ "x" +:+ pretty s.

(** Lines 48-84. *)
Definition main : M unit :=
  exec Path_mkdir ICONS_DIR;
  exec for_each png_sizes (fun entry =>
    let filename := fst entry in
    let size := snd entry in
    do icon <- generate_icon size;
    exec Image_save icon (ICONS_DIR // filename) PNG [] [];
    print ("Generated " +:+ filename +:+ " (" +:+ size_label size +:+ ")"));
  do ico_images <- map_M generate_icon ico_sizes;
  exec match ico_images with
       | [] => lift (Raise IndexError)
       | first :: others =>
           Image_save first (ICONS_DIR // "icon.ico") ICO
                      (map (fun s => (s, s)) ico_sizes) others
       end;
  exec print ("Generated icon.ico (" +:+ join ", " (map size_label ico_sizes) +:+ ")");
  do icns_icon <- generate_icon 512;
  exec Image_save icns_icon (ICONS_DIR // "icon.icns") ICNS [] [];
  exec print "Generated icon.icns";
  print (String (Ascii.ascii_of_nat 10) "Done!").

(** [if __name__ == "__main__": main()]: an exception that reaches the top
    ends the process with status 1, a normal return with status 0. *)
Definition run_script (w : World) : Z * World :=
  match main w with
  | (Ok _, w') => (0, w')
  | (Raise _, w') => (1, w')
  end.

End Script.


(** ** Names for what the properties speak about *)

Definition logged (e : Event) (w : World) : World :=
  mkWorld (files w) (dirs w) (e :: log w).

Definition written (p : Path) (data : list byte) (e : Event) (w : World) : World :=
  mkWorld (<[p := data]> (files w)) (dirs w) (e :: log w).

(** A computation that only adds to the log. *)
Definition extends_log {A} (m : M A) : Prop :=
  forall w, exists later, log (snd (m w)) = later ++ log w.

(** No component of the path is taken by a regular file. *)
Fixpoint creatable (p : Path) (w : World) : bool :=
  match p with
  | [] => true
  | _ :: parent => negb (is_file p w) && creatable parent w
  end.

Definition is_open (e : Event) : bool :=
  match e with EOpen _ => true | _ => false end.

Definition is_save (fmt : Format) (e : Event) : bool :=
  match e, fmt with
  | ESave _ PNG _ _ _, PNG | ESave _ ICO _ _ _, ICO | ESave _ ICNS _ _ _, ICNS => true
  | _, _ => false
  end.

(** The number of decodes in a log. *)
Definition opens (l : list Event) : nat := length (List.filter is_open l).

(** Every directory lies in a directory. *)
Definition dirs_closed (w : World) : bool :=
  forallb (fun p => is_dir (tail p) w) (elements (dirs w)).

Section Views.

Context {Pil : Pillow}.
Variable ROOT : Path.

(** The background-only layer of lines 33-36: the colored canvas
    stencilled through the mask, before the logo is pasted. *)
Definition background (size radius : Z) : Image :=
  paste (Image_new RGBA (size, size) [0; 0; 0; 0])
        (Image_new RGBA (size, size) (BG_COLOR ++ [255]))
        (0, 0)
        (rounded_rect_mask size radius).

(** The resized logo of lines 39-41. *)
Definition logo_resized (opened : Image) (size padding : Z) : Image :=
  resize (convert opened RGBA) (size - 2 * padding, size - 2 * padding).

(** The value [generate_icon] returns, given the decoded logo and the two
    lengths of lines 29-30. *)
Definition compose (opened : Image) (size radius padding : Z) : Image :=
  paste (background size radius)
        (logo_resized opened size padding)
        (padding, padding)
        (logo_resized opened size padding).

(** The composed icon of a size. *)
Definition icon (opened : Image) (size : Z) : Image :=
  compose opened size (size * 164 / 1000) (size * 5 / 100).

(** What [Image.open(LOGO_PATH)] finds. *)
Definition logo_image (w : World) : option Image :=
  match files w !! LOGO_PATH ROOT with
  | Some bytes => decode bytes
  | None => None
  end.

Definition output_names : list string :=
  map fst png_sizes ++ ["icon.ico"; "icon.icns"].

(** The icons directory can be made and none of the outputs is in the way. *)
Definition writable (w : World) : bool :=
  creatable (ICONS_DIR ROOT) w
  && forallb (fun name => negb (is_dir (ICONS_DIR ROOT // name) w)) output_names.

Definition png_save (opened : Image) (entry : string * Z) : Event :=
  ESave (ICONS_DIR ROOT // fst entry) PNG (icon opened (snd entry)) [] [].

End Views.

(** The corner squares of side [s] of a [size] x [size] image. *)
Definition in_corner_square (size s x y : Z) : Prop :=
  0 <= x < size /\ 0 <= y < size /\
  (x < s \/ size - s <= x) /\ (y < s \/ size - s <= y).

(** ** The world after a successful run *)

Section AfterRun.

Context {Pil : Pillow}.
Variable ROOT : Path.

Definition decoded (w : World) : World := logged (EOpen (LOGO_PATH ROOT)) w.

Definition png_line (entry : string * Z) : string :=
  "Generated " +:+ fst entry +:+ " (" +:+ size_label (snd entry) +:+ ")".

Definition png_step (opened : Image) (w : World) (entry : string * Z) : World :=
  logged (EPrint (png_line entry))
    (written (ICONS_DIR ROOT // fst entry)
             (encode PNG [icon opened (snd entry)])
             (png_save ROOT opened entry)
             (decoded w)).

Definition ico_pairs : list (Z * Z) := map (fun s => (s, s)) ico_sizes.

Definition ico_others (opened : Image) : list Image :=
  map (icon opened) (tail ico_sizes).

Definition ico_save (opened : Image) : Event :=
  ESave (ICONS_DIR ROOT // "icon.ico") ICO (icon opened 256)
        ico_pairs (ico_others opened).

Definition ico_line : string :=
  "Generated icon.ico (" +:+ join ", " (map size_label ico_sizes) +:+ ")".

Definition ico_step (opened : Image) (w : World) : World :=
  logged (EPrint ico_line)
    (written (ICONS_DIR ROOT // "icon.ico")
             (encode ICO (ico_frames (icon opened 256) ico_pairs (ico_others opened)))
             (ico_save opened)
             (fold_left (fun w _ => decoded w) ico_sizes w)).

Definition icns_save (opened : Image) : Event :=
  ESave (ICONS_DIR ROOT // "icon.icns") ICNS (icon opened 512) [] [].

Definition icns_step (opened : Image) (w : World) : World :=
  logged (EPrint (String (Ascii.ascii_of_nat 10) "Done!"))
    (logged (EPrint "Generated icon.icns")
       (written (ICONS_DIR ROOT // "icon.icns")
                (encode ICNS [icon opened 512])
                (icns_save opened)
                (decoded w))).

(** From the world in which the icons directory has just been made. *)
Definition after_run (opened : Image) (w : World) : World :=
  icns_step opened (ico_step opened (fold_left (png_step opened) png_sizes w)).

(** The state in which every step of the run goes through. *)
Definition ready (opened : Image) (w : World) : Prop :=
  logo_image ROOT w = Some opened
  /\ is_dir (ICONS_DIR ROOT) w = true
  /\ forall name, In name output_names -> is_dir (ICONS_DIR ROOT // name) w = false.

End AfterRun.
(** ** An executable Pillow

    A small instance of the interface: a geometric rasteriser, a box-filter
    resampler, a raw RGBA container as the file format.  It obeys
    [PillowLaws], so the laws are consistent, and the script runs on it. *)

Module Reference.

Definition inb (lo x hi : Z) : bool := (lo <=? x) && (x <? hi).

(** Fill the pixels of the box that are not cut off by a corner circle. *)
Definition draw_rounded_rectangle (im : Image) (box : Z * Z * Z * Z)
    (R fill : Z) : Image :=
  let '(x0, y0, x1, y1) := box in
  mkImage (im_mode im) (im_width im) (im_height im)
    (fun b x y =>
       if inb x0 x (x1 + 1) && inb y0 y (y1 + 1) then
         let cx := Z.max (x0 + R - x) (x - (x1 - R)) in
         let cy := Z.max (y0 + R - y) (y - (y1 - R)) in
         if (0 <? cx) && (0 <? cy) && (R * R + R <? cx * cx + cy * cy)
         then im_band im b x y
         else fill
       else im_band im b x y).

(** The source cells [lo .. hi-1] that an output pixel covers. *)
Definition cell_lo (n_in n_out x : Z) : Z := x * n_in / n_out.
Definition cell_hi (n_in n_out x : Z) : Z :=
  Z.max (cell_lo n_in n_out x + 1) (((x + 1) * n_in + n_out - 1) / n_out).
Definition cell (n_in n_out x : Z) : list Z :=
  seqZ (cell_lo n_in n_out x) (cell_hi n_in n_out x - cell_lo n_in n_out x).

Definition total (l : list Z) : Z := fold_right Z.add 0 l.

(** The rounded mean of a band over a block of pixels. *)
Definition box_mean (im : Image) (b : nat) (xs ys : list Z) : Z :=
  let cells := list_prod xs ys in
  let n := Z.of_nat (length cells) in
  (2 * total (map (fun c => im_band im b (fst c) (snd c)) cells) + n) / (2 * n).

Definition box_resize (im : Image) (size : Z * Z) : Image :=
  mkImage (im_mode im) (fst size) (snd size)
    (fun b x y =>
       box_mean im b (cell (im_width im) (fst size) x)
                     (cell (im_height im) (snd size) y)).

(** Pillow's mixing of a destination and a source byte under a mask byte. *)
Definition blend (m a b : Z) : Z :=
  let t := a * (255 - m) + b * m + 128 in
  Z.shiftr (Z.shiftr t 8 + t) 8.

Definition mask_paste (dst src : Image) (off : Z * Z) (mask : Image) : Image :=
  mkImage (im_mode dst) (im_width dst) (im_height dst)
    (fun b x y =>
       let sx := x - fst off in
       let sy := y - snd off in
       if inb 0 sx (im_width src) && inb 0 sy (im_height src) then
         let m := mask_value mask sx sy in
         if m =? 0 then im_band dst b x y
         else if m =? 255 then im_band src b sx sy
         else blend m (im_band dst b x y) (im_band src b sx sy)
       else im_band dst b x y).

Definition to_mode (im : Image) (m : Mode) : Image :=
  mkImage m (im_width im) (im_height im)
    (fun b x y =>
       match m, im_mode im, b with
       | RGBA, (L | P), 3%nat => 255
       | RGBA, (L | P | LA), (0 | 1 | 2)%nat => im_band im 0%nat x y
       | RGBA, LA, 3%nat => im_band im 1%nat x y
       | RGBA, RGB, 3%nat => 255
       | _, _, _ => im_band im b x y
       end).

Definition byteZ (b : byte) : Z := Z.of_N (Byte.to_N b).

(** A raw container: width, height, then RGBA bytes row by row. *)
Definition raw_decode (bytes : list byte) : option Image :=
  match bytes with
  | wb :: hb :: data =>
      let w := byteZ wb in
      let h := byteZ hb in
      if (0 <? w) && (0 <? h) && (Z.of_nat (length data) =? 4 * w * h) then
        Some (mkImage RGBA w h
                (fun b x y =>
                   byteZ (nth (Z.to_nat (4 * (y * w + x)) + b) data "000"%byte)))
      else None
  | _ => None
  end.

Definition Zbyte (z : Z) : byte :=
  match Byte.of_N (Z.to_N (z mod 256)) with
  | Some b => b
  | None => "000"%byte
  end.

(** A digest in place of a container: format tag, then for every frame
    its size and its centre pixel. *)
Definition digest (fmt : Format) (ims : list Image) : list byte :=
  match fmt with PNG => "P" | ICO => "I" | ICNS => "N" end%byte
  :: flat_map
       (fun im =>
          let cx := im_width im / 2 in
          let cy := im_height im / 2 in
          Zbyte (im_width im / 256) :: Zbyte (im_width im)
          :: map (fun b => Zbyte (im_band im b cx cy)) [0; 1; 2; 3]%nat)
       ims.

#[export] Instance pillow : Pillow := {|
  rounded_rectangle := draw_rounded_rectangle;
  resize := box_resize;
  thumbnail := fun im size =>
    box_resize im (Z.min (fst size) (im_width im), Z.min (snd size) (im_height im));
  paste := mask_paste;
  convert := to_mode;
  decode := raw_decode;
  encode := digest
|}.

(** A checkout with a 2x2 logo: red, green, blue and a transparent pixel. *)
Definition root : Path := ["ntfier"; "work"].

Definition logo_bytes : list byte :=
  [ "002"; "002";
    "255"; "000"; "000"; "255";   "000"; "255"; "000"; "255";
    "000"; "000"; "255"; "255";   "000"; "000"; "000"; "000" ]%byte.

Definition checkout : World :=
  mkWorld {[ LOGO_PATH root := logo_bytes ]}
          {[ ["work"]; root; root // "assets" ]}
          [].

(** The logo as decoded. *)
Definition logo : Image :=
  match raw_decode logo_bytes with
  | Some im => im
  | None => Image_new RGBA (0, 0) []
  end.

(** The same checkout without the logo. *)
Definition bare_checkout : World :=
  mkWorld ∅ {[ ["work"]; root; root // "assets" ]} [].

(** The checkout after an earlier build: the icons directory is there and
    holds an out-of-date file. *)
Definition stale_checkout : World :=
  mkWorld {[ LOGO_PATH root := logo_bytes;
             ICONS_DIR root // "32x32.png" := ["000"%byte] ]}
          {[ ["work"]; root; root // "assets"; root // "src-tauri"; ICONS_DIR root ]}
          [EPrint "Done!"].

(** The checkout with a directory where the second PNG file goes. *)
Definition blocked_checkout : World :=
  mkWorld {[ LOGO_PATH root := logo_bytes ]}
          {[ ["work"]; root; root // "assets"; root // "src-tauri"; ICONS_DIR root;
             ICONS_DIR root // "64x64.png" ]}
          [].

(** The checkout with a regular file where the directory [src-tauri]
    would go. *)
Definition file_in_the_way : World :=
  mkWorld {[ LOGO_PATH root := logo_bytes; root // "src-tauri" := [] ]}
          {[ ["work"]; root; root // "assets" ]}
          [].

End Reference.

(** ** What a run may do to the files and the directories *)

(** A computation that leaves every file outside [S] as it is and removes
    none. *)
Definition writes_only (S : Path -> Prop) {A} (m : M A) : Prop :=
  forall w p,
    (~ S p -> files (snd (m w)) !! p = files w !! p)
    /\ (is_Some (files w !! p) -> is_Some (files (snd (m w)) !! p)).

(** Directories before and after: none removed, none made but [p] and its
    parents. *)
Definition dirs_grown (p : Path) (w w' : World) : Prop :=
  forall q,
    (is_dir q w = true -> is_dir q w' = true)
    /\ (is_dir q w' = true -> is_dir q w = true \/ q `suffix_of` p).

(** A computation that removes no directory and makes none but [p] and its
    parents. *)
Definition grows_dirs (p : Path) {A} (m : M A) : Prop :=
  forall w, dirs_grown p w (snd (m w)).

Definition is_print (e : Event) : option string :=
  match e with EPrint line => Some line | _ => None end.

(** The lines printed, oldest first, in a list of events given newest
    first. *)
Definition printed (later : list Event) : list string :=
  omap is_print (rev later).

Definition is_any_save (e : Event) : bool :=
  match e with ESave _ _ _ _ _ => true | _ => false end.

Section Outputs.

Context {Pil : Pillow}.
Variable ROOT : Path.

(** An output path of the run. *)
Definition is_output (p : Path) : Prop :=
  exists name, In name output_names /\ p = ICONS_DIR ROOT // name.

Definition png_out (opened : Image) (entry : string * Z) : string * list byte :=
  (fst entry, encode PNG [icon opened (snd entry)]).

(** The bytes each output file receives, in the order the run writes
    them. *)
Definition outputs (opened : Image) : list (string * list byte) :=
  map (png_out opened) png_sizes
  ++ [ ("icon.ico",
        encode ICO (ico_frames (icon opened 256) ico_pairs (ico_others opened)));
       ("icon.icns", encode ICNS [icon opened 512]) ].

(** The path of an output is a directory. *)
Definition out_blocked (w : World) (out : string * list byte) : bool :=
  is_dir (ICONS_DIR ROOT // fst out) w.

(** Writing outputs one after the other, up to the first whose path is a
    directory in [w]. *)
Fixpoint write_outputs (outs : list (string * list byte)) (w : World)
    (m : gmap Path (list byte)) : gmap Path (list byte) :=
  match outs with
  | [] => m
  | out :: rest =>
      if is_dir (ICONS_DIR ROOT // fst out) w then m
      else write_outputs rest w (<[ICONS_DIR ROOT // fst out := snd out]> m)
  end.

(** Some output path is a directory. *)
Definition blocked (w : World) : bool :=
  existsb (fun name => is_dir (ICONS_DIR ROOT // name) w) output_names.

End Outputs.

(** * Properties

    ** Numbers *)

Lemma all_from_spec n P : forall z0,
  all_from n z0 P = true -> forall z, z0 <= z < z0 + Z.of_nat n -> P z = true.
Proof.
  induction n as [|k IH]; intros z0 Hall z Hz.
  - lia.
  - cbn [all_from] in Hall. apply andb_true_iff in Hall as [Hk Hrest].
    destruct (Z.eq_dec z z0) as [->|Hne]; [exact Hk|].
    apply (IH (z0 + 1)); [exact Hrest|lia].
Qed.

Lemma all_below_spec bound P :
  all_below bound P = true -> forall z, 0 <= z < bound -> P z = true.
Proof.
  unfold all_below. intros Hall z Hz.
  apply (all_from_spec _ _ 0 Hall). rewrite Z2Nat.id; lia.
Qed.

Lemma result_eqb_spec r v : result_eqb r v = true -> r = Ok v.
Proof.
  destruct r as [z|e]; cbn; [|discriminate].
  intros H. apply Z.eqb_eq in H. by subst.
Qed.

(** The literals are the floats Python reads them as. *)
Lemma CORNER_RADIUS_RATIO_literal : CORNER_RADIUS_RATIO = Py.literal 164 1000.
Proof. vm_compute. reflexivity. Qed.

Lemma LOGO_PADDING_RATIO_literal : LOGO_PADDING_RATIO = Py.literal 5 100.
Proof. vm_compute. reflexivity. Qed.

Lemma ratios_floor_checked :
  all_below 65536 (fun s => result_eqb (radius s) (s * 164 / 1000)
                            && result_eqb (padding s) (s * 5 / 100)) = true.
Proof. vm_cast_no_check (eq_refl true). Qed.

Lemma radius_floor size :
  0 <= size < 65536 -> radius size = Ok (size * 164 / 1000).
Proof.
  intros H. apply result_eqb_spec.
  pose proof (all_below_spec 65536 _ ratios_floor_checked size H) as Hb.
  cbv beta in Hb. apply andb_true_iff in Hb. apply Hb.
Qed.

Lemma padding_floor size :
  0 <= size < 65536 -> padding size = Ok (size * 5 / 100).
Proof.
  intros H. apply result_eqb_spec.
  pose proof (all_below_spec 65536 _ ratios_floor_checked size H) as Hb.
  cbv beta in Hb. apply andb_true_iff in Hb. apply Hb.
Qed.


(** ** The executable Pillow obeys the laws *)

Module ReferenceLaws.

Import Reference.

Lemma inb_true lo x hi : lo <= x < hi -> inb lo x hi = true.
Proof. intros H. unfold inb. apply andb_true_iff. split; [apply Z.leb_le|apply Z.ltb_lt]; lia. Qed.

Lemma inb_false lo x hi : ~ (lo <= x < hi) -> inb lo x hi = false.
Proof.
  intros H. unfold inb. apply andb_false_iff.
  destruct (Z_le_gt_dec lo x); [right; apply Z.ltb_ge|left; apply Z.leb_gt]; lia.
Qed.

Lemma total_const (l : list Z) c :
  (forall z, In z l -> z = c) -> total l = c * Z.of_nat (length l).
Proof.
  induction l as [|a l IH]; intros H; cbn [total fold_right length].
  - lia.
  - fold (total l). rewrite IH by (intros z Hz; apply H; now right).
    rewrite (H a) by now left. lia.
Qed.

Lemma rounded_mean c n : 0 < n -> (2 * (c * n) + n) / (2 * n) = c.
Proof. intros Hn. symmetry. apply (Z.div_unique _ _ c n); lia. Qed.

Lemma cell_bounds n_in n_out x u :
  0 < n_in -> 0 < n_out -> 0 <= x < n_out ->
  In u (cell n_in n_out x) ->
  0 <= u < n_in /\ in_window n_in n_out x u.
Proof.
  intros Hin Hout Hx Hu.
  apply list_elem_of_In, elem_of_seqZ in Hu.
  unfold cell_hi, cell_lo, in_window in *.
  pose proof (Z.div_mod (x * n_in) n_out ltac:(lia)) as Hlo.
  pose proof (Z.mod_pos_bound (x * n_in) n_out Hout) as Hlo'.
  pose proof (Z.div_mod ((x + 1) * n_in + n_out - 1) n_out ltac:(lia)) as Hhi.
  pose proof (Z.mod_pos_bound ((x + 1) * n_in + n_out - 1) n_out Hout) as Hhi'.
  set (lo := x * n_in / n_out) in *.
  set (c2 := ((x + 1) * n_in + n_out - 1) / n_out) in *.
  assert (Hnn : 0 <= lo) by (apply Z.div_pos; nia).
  assert (Hup : u * n_out < (x + 1) * n_in) by nia.
  assert (Hdn : x * n_in < (u + 1) * n_out) by nia.
  split; [split; [lia | nia] |].
  apply Z.abs_le. split; nia.
Qed.

Lemma cell_nonempty n_in n_out x : (0 < length (cell n_in n_out x))%nat.
Proof. unfold cell. rewrite length_seqZ. unfold cell_hi. lia. Qed.

Lemma box_mean_const im b xs ys c :
  (0 < length xs)%nat -> (0 < length ys)%nat ->
  (forall u v, In u xs -> In v ys -> im_band im b u v = c) ->
  box_mean im b xs ys = c.
Proof.
  intros Hxs Hys H. unfold box_mean.
  rewrite (total_const _ c).
  - rewrite length_map. apply rounded_mean. rewrite length_prod. nia.
  - intros z Hz. apply in_map_iff in Hz as ([u v] & <- & Huv).
    apply in_prod_iff in Huv as [Hu Hv]. now apply H.
Qed.

Lemma box_resize_window im w h b x y c :
  0 < w -> 0 < h -> 0 < im_width im -> 0 < im_height im ->
  0 <= x < w -> 0 <= y < h ->
  (forall u v, 0 <= u < im_width im -> 0 <= v < im_height im ->
               in_window (im_width im) w x u -> in_window (im_height im) h y v ->
               im_band im b u v = c) ->
  im_band (box_resize im (w, h)) b x y = c.
Proof.
  intros Hw Hh HW HH Hx Hy Hc. cbn.
  apply box_mean_const; try apply cell_nonempty.
  intros u v Hu Hv.
  apply cell_bounds in Hu as [Hu1 Hu2]; try lia.
  apply cell_bounds in Hv as [Hv1 Hv2]; try lia.
  now apply Hc.
Qed.

Lemma laws : PillowLaws pillow.
Proof.
  split.
  - intros im [[[x0 y0] x1] y1] R fill. reflexivity.
  - intros im [[[x0 y0] x1] y1] R fill. reflexivity.
  - intros im [[[x0 y0] x1] y1] R fill. reflexivity.
  - intros im n R fill x y Hw Hh HR HRn Hx Hy Hcx Hcy Hfar.
    unfold corner_depth in *. cbn.
    rewrite !inb_true by lia. cbn.
    replace (0 + R - x) with (R - x) by lia.
    replace (0 + R - y) with (R - y) by lia.
    set (cx := Z.max (R - x) (x - (n - 1 - R))) in *.
    set (cy := Z.max (R - y) (y - (n - 1 - R))) in *.
    assert (H1 : (0 <? cx) = true) by (apply Z.ltb_lt; lia).
    assert (H2 : (0 <? cy) = true) by (apply Z.ltb_lt; lia).
    assert (H3 : (R * R + R <? cx * cx + cy * cy) = true) by (apply Z.ltb_lt; nia).
    now rewrite H1, H2, H3.
  - intros im n R fill x y Hw Hh HR HRn Hx Hy Hin.
    unfold corner_depth in *. cbn.
    rewrite !inb_true by lia. cbn.
    replace (0 + R - x) with (R - x) by lia.
    replace (0 + R - y) with (R - y) by lia.
    set (cx := Z.max (R - x) (x - (n - 1 - R))) in *.
    set (cy := Z.max (R - y) (y - (n - 1 - R))) in *.
    destruct (0 <? cx) eqn:H1; [|reflexivity].
    destruct (0 <? cy) eqn:H2; [|reflexivity].
    apply Z.ltb_lt in H1, H2.
    assert (H3 : (R * R + R <? cx * cx + cy * cy) = false) by (apply Z.ltb_ge; nia).
    now rewrite H3.
  - reflexivity.
  - reflexivity.
  - reflexivity.
  - intros im w h b x y Hw Hh HW HH Hx Hy Hz. now apply box_resize_window.
  - intros im w h b x y c Hw Hh Hx Hy HW HH _ Hc. apply box_resize_window; auto; lia.
  - reflexivity.
  - reflexivity.
  - reflexivity.
  - intros dst src [ox oy] mask b x y Hout. unfold in_box in Hout. cbn in *.
    destruct (inb 0 (x - ox) (im_width src)) eqn:Hbx; [|reflexivity].
    destruct (inb 0 (y - oy) (im_height src)) eqn:Hby; [|reflexivity].
    unfold inb in Hbx, Hby. apply andb_true_iff in Hbx as [A B], Hby as [C D].
    apply Z.leb_le in A, C. apply Z.ltb_lt in B, D. lia.
  - intros dst src [ox oy] mask b x y Hsz Hx Hy Hbox Hm. unfold in_box in Hbox. cbn in *.
    rewrite !inb_true by lia. cbn. now rewrite Hm.
  - intros dst src [ox oy] mask b x y Hmode Hsz Hx Hy Hbox Hm. unfold in_box in Hbox. cbn in *.
    rewrite !inb_true by lia. cbn. now rewrite Hm.
  - reflexivity.
  - reflexivity.
  - reflexivity.
Qed.

End ReferenceLaws.

(** ** The composed image *)

Section ComposeFacts.

Context {Pil : Pillow} {Laws : PillowLaws Pil}.

Lemma rounded_rect_mask_mode size r : im_mode (rounded_rect_mask size r) = L.
Proof.
  unfold rounded_rect_mask. now rewrite resize_mode, rounded_rectangle_mode.
Qed.

Lemma rounded_rect_mask_size size r :
  0 < size -> im_size (rounded_rect_mask size r) = (size, size).
Proof.
  intros H. unfold rounded_rect_mask, im_size.
  now rewrite resize_width, resize_height.
Qed.

Lemma background_mode size r : im_mode (background size r) = RGBA.
Proof. unfold background. now rewrite paste_mode. Qed.

Lemma background_size size r : im_size (background size r) = (size, size).
Proof. unfold background, im_size. now rewrite paste_width, paste_height. Qed.

Lemma compose_mode opened size r p : im_mode (compose opened size r p) = RGBA.
Proof. unfold compose. rewrite paste_mode. apply background_mode. Qed.

Lemma compose_size opened size r p :
  im_size (compose opened size r p) = (size, size).
Proof.
  unfold compose, im_size. rewrite paste_width, paste_height.
  apply background_size.
Qed.

Lemma icon_size opened size : im_size (icon opened size) = (size, size).
Proof. apply compose_size. Qed.

Lemma icon_width opened size : im_width (icon opened size) = size.
Proof. exact (f_equal fst (icon_size opened size)). Qed.

Lemma icon_height opened size : im_height (icon opened size) = size.
Proof. exact (f_equal snd (icon_size opened size)). Qed.

(** The window of a 4:1 reduction. *)
Lemma in_window_4 size x u :
  0 < size -> in_window (size * 4) size x u -> 4 * x - 11 <= u <= 4 * x + 14.
Proof.
  unfold in_window. intros Hs Hw.
  replace (Z.max (size * 4) size) with (size * 4) in Hw by lia.
  apply Z.abs_le in Hw. nia.
Qed.

(** The mask is zero where the window of a pixel lies beyond a corner arc. *)
Lemma mask_corner_zero size r s x y :
  0 < size -> 0 < r -> 8 * r < 4 * size - 2 ->
  4 * s + 10 < 4 * r ->
  (4 * r + 1) ^ 2 <= 2 * (4 * r - 4 * s - 10) ^ 2 ->
  in_corner_square size s x y ->
  mask_value (rounded_rect_mask size r) x y = 0.
Proof.
  intros Hsize Hr Hsep Hs Hfar (Hx & Hy & Hcx & Hcy).
  unfold mask_value. rewrite rounded_rect_mask_mode. cbn [mask_band].
  unfold rounded_rect_mask.
  apply resize_window_zero; try lia;
    rewrite ?rounded_rectangle_width, ?rounded_rectangle_height; cbn; try lia.
  intros u v Hu Hv Hwu Hwv.
  apply in_window_4 in Hwu, Hwv; try lia.
  rewrite (rounded_rectangle_outside _ (size * 4)); cbn; try lia;
    try reflexivity; unfold corner_depth; try lia.
  set (d := 4 * r - 4 * s - 10) in *.
  set (cu := Z.max (r * 4 - u) (u - (size * 4 - 1 - r * 4))).
  set (cv := Z.max (r * 4 - v) (v - (size * 4 - 1 - r * 4))).
  assert (d ^ 2 <= cu ^ 2) by (apply Z.pow_le_mono_l; lia).
  assert (d ^ 2 <= cv ^ 2) by (apply Z.pow_le_mono_l; lia).
  lia.
Qed.

(** The mask is full where the window of a pixel lies within the shape. *)
Lemma mask_interior_full size r s x y :
  0 < size -> 0 < r -> 8 * r < 4 * size - 2 ->
  11 <= 4 * s ->
  2 * (4 * r - 4 * s + 11) ^ 2 <= (4 * r - 1) ^ 2 ->
  s <= x < size - s -> s <= y < size - s ->
  mask_value (rounded_rect_mask size r) x y = 255.
Proof.
  intros Hsize Hr Hsep Hs Hnear Hx Hy.
  unfold mask_value. rewrite rounded_rect_mask_mode. cbn [mask_band].
  unfold rounded_rect_mask.
  apply resize_window_const; try lia;
    rewrite ?rounded_rectangle_width, ?rounded_rectangle_height; cbn; try lia.
  intros u v Hu Hv Hwu Hwv.
  apply in_window_4 in Hwu, Hwv; try lia.
  apply (rounded_rectangle_inside _ (size * 4)); cbn; try lia.
  unfold corner_depth.
  set (d := 4 * r - 4 * s + 11) in *.
  set (cu := Z.max (r * 4 - u) (u - (size * 4 - 1 - r * 4))).
  set (cv := Z.max (r * 4 - v) (v - (size * 4 - 1 - r * 4))).
  destruct (Z_lt_dec cu 0); [now left|].
  destruct (Z_lt_dec cv 0); [now right; left|].
  right; right.
  assert (cu ^ 2 <= d ^ 2) by (apply Z.pow_le_mono_l; lia).
  assert (cv ^ 2 <= d ^ 2) by (apply Z.pow_le_mono_l; lia).
  lia.
Qed.

(** The alpha of the background layer is the mask at its two ends. *)
Lemma background_alpha_zero size r x y :
  0 < size -> 0 <= x < size -> 0 <= y < size ->
  mask_value (rounded_rect_mask size r) x y = 0 ->
  alpha (background size r) x y = 0.
Proof.
  intros Hsize Hx Hy Hm. unfold alpha, background.
  rewrite paste_transparent.
  - reflexivity.
  - now rewrite rounded_rect_mask_size.
  - cbn; lia.
  - cbn; lia.
  - unfold in_box; cbn; lia.
  - cbn. now rewrite !Z.sub_0_r.
Qed.

Lemma background_alpha_full size r x y :
  0 < size -> 0 <= x < size -> 0 <= y < size ->
  mask_value (rounded_rect_mask size r) x y = 255 ->
  alpha (background size r) x y = 255.
Proof.
  intros Hsize Hx Hy Hm. unfold alpha, background.
  rewrite paste_opaque.
  - reflexivity.
  - reflexivity.
  - now rewrite rounded_rect_mask_size.
  - cbn; lia.
  - cbn; lia.
  - unfold in_box; cbn; lia.
  - cbn. now rewrite !Z.sub_0_r.
Qed.

(** The corners are separate for every radius the script computes. *)
Lemma radius_separate size r :
  1 <= size < 65536 -> radius size = Ok r -> 0 <= r /\ 8 * r < 4 * size - 2.
Proof.
  intros Hs Hr. rewrite radius_floor in Hr by lia. injection Hr as <-.
  pose proof (Z.mul_div_le (size * 164) 1000 ltac:(lia)).
  split; [apply Z.div_pos|]; lia.
Qed.

End ComposeFacts.

(** ** Running computations *)

Lemma bind_ok {A B} (m : M A) (k : A -> M B) w a w' :
  m w = (Ok a, w') -> bind m k w = k a w'.
Proof. intros H. unfold bind. now rewrite H. Qed.

Lemma bind_raise {A B} (m : M A) (k : A -> M B) w e w' :
  m w = (Raise e, w') -> bind m k w = (Raise e, w').
Proof. intros H. unfold bind. now rewrite H. Qed.

Lemma extends_log_ret {A} (a : A) : extends_log (ret a).
Proof. intros w. now exists []. Qed.

Lemma extends_log_lift {A} (r : Result A) : extends_log (lift r).
Proof. intros w. now exists []. Qed.

Lemma extends_log_emit e : extends_log (emit e).
Proof. intros w. now exists [e]. Qed.

Lemma extends_log_bind {A B} (m : M A) (k : A -> M B) :
  extends_log m -> (forall a, extends_log (k a)) -> extends_log (bind m k).
Proof.
  intros Hm Hk w. unfold bind. destruct (Hm w) as [l1 H1].
  destruct (m w) as [[a|e] w1]; cbn in *.
  - destruct (Hk a w1) as [l2 H2]. exists (l2 ++ l1).
    now rewrite H2, H1, app_assoc.
  - now exists l1.
Qed.

Lemma extends_log_for_each {A} (l : list A) (body : A -> M unit) :
  (forall a, extends_log (body a)) -> extends_log (for_each l body).
Proof.
  intros Hb. induction l as [|a l IH]; cbn [for_each].
  - apply extends_log_ret.
  - apply extends_log_bind; auto.
Qed.

Lemma extends_log_map_M {A B} (f : A -> M B) (l : list A) :
  (forall a, extends_log (f a)) -> extends_log (map_M f l).
Proof.
  intros Hf. induction l as [|a l IH]; cbn [map_M].
  - apply extends_log_ret.
  - apply extends_log_bind; [auto|]. intros b.
    apply extends_log_bind; [auto|]. intros bs. apply extends_log_ret.
Qed.

(** ** Making directories *)

Lemma is_dir_created q p w :
  is_dir q (mkWorld (files w) ({[p]} ∪ dirs w) (log w)) = true
  <-> q = p \/ is_dir q w = true.
Proof.
  destruct q as [|a q]; cbn; [tauto|].
  rewrite !bool_decide_eq_true. set_solver.
Qed.

Lemma os_mkdir_frame p w :
  files (snd (os_mkdir p w)) = files w /\ log (snd (os_mkdir p w)) = log w.
Proof.
  unfold os_mkdir. destruct p as [|a parent]; [easy|].
  destruct (_ || _); [easy|].
  destruct (is_dir parent w); [easy|].
  now destruct (is_file parent w).
Qed.

Lemma mkdir_exist_ok_frame p w :
  files (snd (mkdir_exist_ok p w)) = files w
  /\ log (snd (mkdir_exist_ok p w)) = log w.
Proof.
  unfold mkdir_exist_ok. pose proof (os_mkdir_frame p w) as Hf.
  destruct (os_mkdir p w) as [[u|e] w1]; cbn in *; [easy|].
  destruct e; cbn; try easy; now destruct (is_dir p w1).
Qed.

Lemma mkdir_parents_frame p : forall w,
  files (snd (mkdir_parents p w)) = files w
  /\ log (snd (mkdir_parents p w)) = log w.
Proof.
  induction p as [|a parent IH]; intros w.
  - cbn. easy.
  - cbn [mkdir_parents]. pose proof (os_mkdir_frame (a :: parent) w) as Hf.
    destruct (os_mkdir (a :: parent) w) as [[u|e] w1]; cbn [snd] in *; [easy|].
    assert (Hother : files (snd (if is_dir (a :: parent) w1
                                 then (Ok (), w1) else (@Raise unit e, w1))) = files w
                     /\ log (snd (if is_dir (a :: parent) w1
                                  then (Ok (), w1) else (@Raise unit e, w1))) = log w)
      by now destruct (is_dir (a :: parent) w1).
    destruct e; try exact Hother.
    pose proof (IH w1) as IH1.
    destruct (mkdir_parents parent w1) as [[u|e] w2]; cbn [snd] in *.
    + pose proof (mkdir_exist_ok_frame (a :: parent) w2) as H2.
      destruct H2 as [H2 H3], IH1 as [H4 H5], Hf as [H6 H7].
      split; congruence.
    + destruct IH1 as [H4 H5], Hf as [H6 H7]. split; congruence.
Qed.

(** An existing directory is accepted as it is. *)
Lemma mkdir_parents_existing p w :
  is_dir p w = true -> mkdir_parents p w = (Ok tt, w).
Proof.
  intros Hd. destruct p as [|a parent]; cbn [mkdir_parents os_mkdir].
  - reflexivity.
  - rewrite Hd. cbn [orb]. now rewrite Hd.
Qed.

Lemma mkdir_exist_ok_parent p w :
  is_file p w = false -> is_dir (tail p) w = true ->
  exists w', mkdir_exist_ok p w = (Ok tt, w')
             /\ is_dir p w' = true
             /\ (forall q, is_dir q w' = true <-> q = p \/ is_dir q w = true).
Proof.
  intros Hf Hd. unfold mkdir_exist_ok, os_mkdir.
  destruct p as [|a parent].
  - exists w. cbn. split; [easy|]. split; [easy|].
    intros q. split; [tauto | intros [->|]; easy].
  - cbn [tail] in Hd. rewrite Hf, Hd, orb_false_r.
    destruct (is_dir (a :: parent) w) eqn:Hp.
    + rewrite Hp. exists w. split; [easy|]. split; [easy|].
      intros q. split; [tauto|]. intros [->|]; easy.
    + eexists. split; [reflexivity|]. split.
      * apply is_dir_created. now left.
      * intros q. apply is_dir_created.
Qed.

Lemma dirs_closed_spec w :
  dirs_closed w = true -> forall a q, is_dir (a :: q) w = true -> is_dir q w = true.
Proof.
  unfold dirs_closed. rewrite forallb_forall. intros Hall a q Hd.
  cbn in Hd. apply bool_decide_eq_true in Hd.
  apply (Hall (a :: q)). now apply list_elem_of_In, elem_of_elements.
Qed.

Lemma suffix_cons_cases {A} (q : list A) a parent :
  q `suffix_of` a :: parent -> q = a :: parent \/ q `suffix_of` parent.
Proof.
  intros [k Hk]. destruct k as [|b k]; cbn in Hk.
  - now left.
  - right. injection Hk as _ ->. now exists k.
Qed.

Lemma closed_suffix w p :
  dirs_closed w = true -> is_dir p w = true ->
  forall q, q `suffix_of` p -> is_dir q w = true.
Proof.
  intros Hc. induction p as [|a parent IH]; intros Hd q Hq.
  - apply suffix_nil_inv in Hq. now subst.
  - apply suffix_cons_cases in Hq as [->|Hq]; [exact Hd|].
    apply IH; [|exact Hq]. now apply (dirs_closed_spec w Hc a).
Qed.

(** Where no file is in the way, the directory and its parents are made,
    and nothing else. *)
Lemma mkdir_parents_ok p : forall w,
  creatable p w = true ->
  exists w', mkdir_parents p w = (Ok tt, w')
             /\ files w' = files w /\ log w' = log w
             /\ is_dir p w' = true
             /\ (forall q, is_dir q w = true -> is_dir q w' = true)
             /\ (forall q, is_dir q w' = true -> is_dir q w = true \/ q `suffix_of` p)
             /\ (dirs_closed w = true ->
                 forall q, q `suffix_of` p -> is_dir q w' = true).
Proof.
  induction p as [|a parent IH]; intros w Hc.
  - exists w. cbn. repeat split; auto.
    intros _ q Hq. apply suffix_nil_inv in Hq. now subst.
  - cbn [creatable] in Hc. apply andb_true_iff in Hc as [Hnf Hcp].
    apply negb_true_iff in Hnf.
    destruct (is_dir (a :: parent) w) eqn:Hp.
    { exists w. rewrite mkdir_parents_existing by exact Hp. repeat split; auto.
      intros Hcl. now apply closed_suffix. }
    destruct (is_dir parent w) eqn:Hpar.
    { cbn [mkdir_parents os_mkdir]. rewrite Hp, Hnf, Hpar. cbn [orb].
      eexists. split; [reflexivity|]. cbn [files log].
      split; [easy|]. split; [easy|]. split; [apply is_dir_created; now left|].
      split; [|split].
      - intros q Hq. apply is_dir_created. now right.
      - intros q Hq. apply is_dir_created in Hq as [->|Hq]; [right|now left].
        reflexivity.
      - intros Hcl q Hq. apply is_dir_created.
        apply suffix_cons_cases in Hq as [->|Hq]; [now left|right].
        now apply (closed_suffix w parent). }
    assert (Hfp : is_file parent w = false).
    { destruct parent as [|b pp]; [discriminate Hpar|].
      cbn [creatable] in Hcp. apply andb_true_iff in Hcp as [Hcp _].
      now apply negb_true_iff in Hcp. }
    destruct (IH w Hcp) as (w1 & Hrun & Hfiles & Hlog & Hd1 & Hmono & Honly & Hanc).
    assert (Hnf1 : is_file (a :: parent) w1 = false)
      by (unfold is_file in *; now rewrite Hfiles).
    destruct (mkdir_exist_ok_parent (a :: parent) w1 Hnf1 Hd1)
      as (w2 & Hrun2 & Hd2 & Hiff).
    pose proof (mkdir_exist_ok_frame (a :: parent) w1) as [Hf2 Hl2].
    rewrite Hrun2 in Hf2, Hl2. cbn [snd] in Hf2, Hl2.
    exists w2. cbn [mkdir_parents os_mkdir]. rewrite Hp, Hnf, Hpar, Hfp. cbn [orb].
    rewrite Hrun. split; [exact Hrun2|].
    split; [congruence|]. split; [congruence|]. split; [exact Hd2|].
    split; [|split].
    + intros q Hq. apply Hiff. right. now apply Hmono.
    + intros q Hq. apply Hiff in Hq as [->|Hq]; [right; reflexivity|].
      apply Honly in Hq as [Hq|Hq]; [now left|right].
      now apply suffix_cons_r.
    + intros Hcl q Hq. apply Hiff.
      apply suffix_cons_cases in Hq as [->|Hq]; [now left|right].
      now apply Hanc.
Qed.

(** ** The steps of the run *)

Section RunFacts.

Context {Pil : Pillow}.
Variable ROOT : Path.

Lemma Image_open_logo w opened :
  logo_image ROOT w = Some opened ->
  Image_open (LOGO_PATH ROOT) w = (Ok opened, decoded ROOT w).
Proof.
  unfold logo_image, Image_open, bind, emit. cbn [files].
  destruct (files w !! LOGO_PATH ROOT) as [bytes|]; [|discriminate].
  now intros ->.
Qed.

Lemma Image_open_no_logo w :
  logo_image ROOT w = None ->
  exists e, Image_open (LOGO_PATH ROOT) w = (Raise e, decoded ROOT w).
Proof.
  unfold logo_image, Image_open, bind, emit. cbn [files].
  destruct (files w !! LOGO_PATH ROOT) as [bytes|].
  - intros ->. now eexists.
  - intros _. destruct (is_dir _ _); now eexists.
Qed.

Lemma generate_icon_ok size w opened :
  0 <= size < 65536 ->
  logo_image ROOT w = Some opened ->
  generate_icon ROOT size w = (Ok (icon opened size), decoded ROOT w).
Proof.
  intros Hs Hl. unfold generate_icon.
  rewrite radius_floor, padding_floor by exact Hs.
  unfold bind at 1 2, lift.
  rewrite (bind_ok _ _ _ _ _ (Image_open_logo w opened Hl)).
  reflexivity.
Qed.

Lemma generate_icon_no_logo size w :
  0 <= size < 65536 ->
  logo_image ROOT w = None ->
  exists e, generate_icon ROOT size w = (Raise e, decoded ROOT w).
Proof.
  intros Hs Hl. unfold generate_icon.
  rewrite radius_floor, padding_floor by exact Hs.
  unfold bind at 1 2, lift.
  destruct (Image_open_no_logo w Hl) as [e He]. exists e.
  now rewrite (bind_raise _ _ _ _ _ He).
Qed.

Lemma Image_save_ok im p fmt sizes others w :
  is_dir p w = false -> is_dir (tail p) w = true ->
  Image_save im p fmt sizes others w
  = (Ok tt, written p (encode fmt (frames fmt im sizes others))
                    (ESave p fmt im sizes others) w).
Proof. intros Hp Hd. unfold Image_save. now rewrite Hp, Hd. Qed.

Lemma output_not_logo name : ICONS_DIR ROOT // name <> LOGO_PATH ROOT.
Proof. unfold ICONS_DIR, LOGO_PATH, child. intros [= _ H]. Qed.

Lemma ready_logged opened e w : ready ROOT opened w -> ready ROOT opened (logged e w).
Proof. intros H. exact H. Qed.

Lemma ready_written opened name data e w :
  ready ROOT opened w -> ready ROOT opened (written (ICONS_DIR ROOT // name) data e w).
Proof.
  intros (Hl & Hd & Hn). split; [|split; assumption].
  unfold logo_image, written in *. cbn [files].
  rewrite lookup_insert_ne by apply output_not_logo. exact Hl.
Qed.

Lemma ready_decoded opened w : ready ROOT opened w -> ready ROOT opened (decoded ROOT w).
Proof. apply ready_logged. Qed.

Lemma ready_png_step opened w entry :
  ready ROOT opened w -> ready ROOT opened (png_step ROOT opened w entry).
Proof.
  intros H. unfold png_step.
  now apply ready_logged, ready_written, ready_decoded.
Qed.

(** One turn of the PNG loop. *)
Lemma png_turn opened w entry :
  ready ROOT opened w ->
  In (fst entry) output_names -> 0 <= snd entry < 65536 ->
  (do icon <- generate_icon ROOT (snd entry);
   exec Image_save icon (ICONS_DIR ROOT // fst entry) PNG [] [];
   print ("Generated " +:+ fst entry +:+ " (" +:+ size_label (snd entry) +:+ ")")) w
  = (Ok tt, png_step ROOT opened w entry).
Proof.
  intros Hr Hname Hsize.
  rewrite (bind_ok _ _ _ _ _ (generate_icon_ok _ _ _ Hsize (proj1 Hr))).
  apply ready_decoded in Hr. destruct Hr as (_ & Hd & Hn).
  rewrite (bind_ok _ _ _ _ _ (Image_save_ok _ _ PNG [] [] _ (Hn _ Hname) Hd)).
  reflexivity.
Qed.

Lemma png_loop opened entries : forall w,
  ready ROOT opened w ->
  Forall (fun entry => In (fst entry) output_names /\ 0 <= snd entry < 65536) entries ->
  for_each entries (fun entry =>
    let filename := fst entry in
    let size := snd entry in
    do icon <- generate_icon ROOT size;
    exec Image_save icon (ICONS_DIR ROOT // filename) PNG [] [];
    print ("Generated " +:+ filename +:+ " (" +:+ size_label size +:+ ")")) w
  = (Ok tt, fold_left (png_step ROOT opened) entries w).
Proof.
  induction entries as [|entry entries IH]; intros w Hr Hall.
  - reflexivity.
  - apply Forall_cons in Hall as [[Hname Hsize] Hall].
    cbn [for_each fold_left].
    rewrite (bind_ok _ _ _ _ _ (png_turn opened w entry Hr Hname Hsize)).
    apply IH; [now apply ready_png_step | exact Hall].
Qed.

Lemma ready_fold_png opened entries : forall w,
  ready ROOT opened w -> ready ROOT opened (fold_left (png_step ROOT opened) entries w).
Proof.
  induction entries as [|entry entries IH]; intros w Hr; [exact Hr|].
  cbn [fold_left]. now apply IH, ready_png_step.
Qed.

(** The list comprehension over the ICO sizes. *)
Lemma ico_comprehension opened sizes : forall w,
  ready ROOT opened w ->
  Forall (fun s => 0 <= s < 65536) sizes ->
  map_M (generate_icon ROOT) sizes w
  = (Ok (map (icon opened) sizes), fold_left (fun w _ => decoded ROOT w) sizes w).
Proof.
  induction sizes as [|s sizes IH]; intros w Hr Hall.
  - reflexivity.
  - apply Forall_cons in Hall as [Hs Hall].
    cbn [map_M fold_left map].
    rewrite (bind_ok _ _ _ _ _ (generate_icon_ok _ _ _ Hs (proj1 Hr))).
    rewrite (bind_ok _ _ _ _ _ (IH _ (ready_decoded _ _ Hr) Hall)).
    reflexivity.
Qed.

Lemma ready_fold_decoded opened (sizes : list Z) : forall w,
  ready ROOT opened w -> ready ROOT opened (fold_left (fun w _ => decoded ROOT w) sizes w).
Proof.
  induction sizes as [|s sizes IH]; intros w Hr; [exact Hr|].
  cbn [fold_left]. now apply IH, ready_decoded.
Qed.

Lemma png_sizes_supported :
  Forall (fun entry : string * Z => In (fst entry) output_names /\ 0 <= snd entry < 65536)
         png_sizes.
Proof.
  unfold png_sizes.
  repeat (apply Forall_cons; split;
          [split; [cbn; repeat (first [left; reflexivity | right]) | cbn; lia]|]).
  constructor.
Qed.

Lemma ico_sizes_supported : Forall (fun s => 0 <= s < 65536) ico_sizes.
Proof. repeat constructor; lia. Qed.

(** The run from a world in which the icons directory exists. *)
Lemma run_after_mkdir opened w w1 :
  Path_mkdir (ICONS_DIR ROOT) w = (Ok tt, w1) ->
  ready ROOT opened w1 ->
  main ROOT w = (Ok tt, after_run ROOT opened w1).
Proof.
  intros Hmk Hr. unfold main.
  rewrite (bind_ok _ _ _ _ _ Hmk).
  rewrite (bind_ok _ _ _ _ _ (png_loop opened png_sizes w1 Hr png_sizes_supported)).
  pose proof (ready_fold_png opened png_sizes w1 Hr) as Hr2.
  set (w2 := fold_left (png_step ROOT opened) png_sizes w1) in *.
  rewrite (bind_ok _ _ _ _ _ (ico_comprehension opened ico_sizes w2 Hr2 ico_sizes_supported)).
  pose proof (ready_fold_decoded opened ico_sizes w2 Hr2) as Hr3.
  set (w3 := fold_left (fun w _ => decoded ROOT w) ico_sizes w2) in *.
  cbn [ico_sizes map].
  destruct Hr3 as (Hl3 & Hd3 & Hn3).
  rewrite (bind_ok _ _ _ _ _
             (Image_save_ok _ (ICONS_DIR ROOT // "icon.ico") ICO _ _ w3
                (Hn3 "icon.ico" ltac:(cbn; repeat (first [left; reflexivity | right]))) Hd3)).
  unfold print at 1. rewrite (bind_ok _ _ _ _ _ (eq_refl : emit _ _ = (Ok tt, logged _ _))).
  set (w4 := logged _ _).
  assert (Hr4 : ready ROOT opened w4).
  { apply ready_logged, ready_written. now split. }
  rewrite (bind_ok _ _ _ _ _ (generate_icon_ok 512 _ _ ltac:(lia) (proj1 Hr4))).
  apply ready_decoded in Hr4. destruct Hr4 as (_ & Hd5 & Hn5).
  rewrite (bind_ok _ _ _ _ _
             (Image_save_ok _ (ICONS_DIR ROOT // "icon.icns") ICNS [] [] _
                (Hn5 "icon.icns" ltac:(cbn; repeat (first [left; reflexivity | right]))) Hd5)).
  reflexivity.
Qed.


Lemma creatable_files p w w' : files w' = files w -> creatable p w' = creatable p w.
Proof.
  intros Hf. induction p as [|a parent IH]; [reflexivity|].
  cbn [creatable]. unfold is_file. now rewrite Hf, IH.
Qed.

(** What [ICONS_DIR.mkdir(parents=True, exist_ok=True)] leaves behind,
    whether it returns or raises. *)
Lemma Path_mkdir_frame p w :
  files (snd (Path_mkdir p w)) = files w
  /\ log (snd (Path_mkdir p w)) = EMkdir p :: log w.
Proof.
  unfold Path_mkdir, bind, emit.
  exact (mkdir_parents_frame p (logged (EMkdir p) w)).
Qed.

Lemma Path_mkdir_ok p w :
  creatable p w = true ->
  exists w1, Path_mkdir p w = (Ok tt, w1)
             /\ files w1 = files w /\ log w1 = EMkdir p :: log w
             /\ is_dir p w1 = true
             /\ (forall q, is_dir q w = true -> is_dir q w1 = true)
             /\ (forall q, is_dir q w1 = true -> is_dir q w = true \/ q `suffix_of` p)
             /\ (dirs_closed w = true ->
                 forall q, q `suffix_of` p -> is_dir q w1 = true).
Proof.
  intros Hc. unfold Path_mkdir, bind, emit. fold (logged (EMkdir p) w).
  destruct (mkdir_parents_ok p (logged (EMkdir p) w))
    as (w1 & Hrun & Hf & Hl & Hd & Hmono & Honly & Hanc).
  - now rewrite (creatable_files p w (logged (EMkdir p) w)).
  - exists w1. rewrite Hrun. repeat split; auto.
Qed.

Lemma Path_mkdir_existing p w :
  is_dir p w = true -> Path_mkdir p w = (Ok tt, logged (EMkdir p) w).
Proof.
  intros Hd. unfold Path_mkdir, bind, emit. fold (logged (EMkdir p) w).
  now rewrite mkdir_parents_existing.
Qed.

Lemma writable_outputs w name :
  writable ROOT w = true -> In name output_names ->
  is_dir (ICONS_DIR ROOT // name) w = false.
Proof.
  unfold writable. intros Hw Hin. apply andb_true_iff in Hw as [_ Hw].
  rewrite forallb_forall in Hw. apply negb_true_iff. now apply Hw.
Qed.

(** A successful run: the directory is made, then everything is written. *)
Lemma main_ok w opened :
  logo_image ROOT w = Some opened ->
  writable ROOT w = true ->
  exists w1, Path_mkdir (ICONS_DIR ROOT) w = (Ok tt, w1)
             /\ files w1 = files w
             /\ log w1 = EMkdir (ICONS_DIR ROOT) :: log w
             /\ main ROOT w = (Ok tt, after_run ROOT opened w1).
Proof.
  intros Hl Hw.
  assert (Hc : creatable (ICONS_DIR ROOT) w = true)
    by (unfold writable in Hw; now apply andb_true_iff in Hw as [Hc _]).
  destruct (Path_mkdir_ok _ w Hc) as (w1 & Hmk & Hf & Hlog & Hd & _ & Honly & _).
  exists w1. repeat split; auto.
  apply run_after_mkdir; [exact Hmk|]. split; [|split].
  - unfold logo_image in *. now rewrite Hf.
  - exact Hd.
  - intros name Hin.
    destruct (is_dir (ICONS_DIR ROOT // name) w1) eqn:Hn; [|reflexivity].
    apply Honly in Hn as [Hn|Hn].
    + now rewrite (writable_outputs w name Hw Hin) in Hn.
    + apply suffix_length in Hn. cbn [child length] in Hn. lia.
Qed.

(** A run without a readable logo: nothing is written. *)
Lemma main_no_logo w :
  logo_image ROOT w = None ->
  exists e w', main ROOT w = (Raise e, w')
               /\ files w' = files w
               /\ dirs w' = dirs (snd (Path_mkdir (ICONS_DIR ROOT) w))
               /\ (log w' = EMkdir (ICONS_DIR ROOT) :: log w
                   \/ log w' = EOpen (LOGO_PATH ROOT) :: EMkdir (ICONS_DIR ROOT) :: log w).
Proof.
  intros Hl. unfold main.
  destruct (Path_mkdir_frame (ICONS_DIR ROOT) w) as [Hf Hlog].
  destruct (Path_mkdir (ICONS_DIR ROOT) w) as [[u|e] w1] eqn:Hmk; cbn [snd] in *.
  - assert (Hl1 : logo_image ROOT w1 = None) by (unfold logo_image in *; now rewrite Hf).
    destruct (generate_icon_no_logo 32 w1 ltac:(lia) Hl1) as [e He].
    exists e, (decoded ROOT w1).
    rewrite (bind_ok _ _ _ _ _ Hmk).
    cbn [png_sizes for_each].
    split.
    + apply bind_raise, bind_raise, bind_raise. exact He.
    + cbn [decoded logged files dirs log]. rewrite Hlog. auto.
  - exists e, w1. rewrite (bind_raise _ _ _ _ _ Hmk). auto.
Qed.

End RunFacts.

(** ** The shape of a run *)

Section RunShape.

Context {Pil : Pillow}.
Variable ROOT : Path.

Lemma extends_log_Image_open p : extends_log (Image_open p).
Proof.
  unfold Image_open. apply extends_log_bind; [apply extends_log_emit|].
  intros _ w. exists [].
  destruct (files w !! p) as [bytes|]; [destruct (decode bytes)|destruct (is_dir p w)];
    reflexivity.
Qed.

Lemma extends_log_generate_icon size : extends_log (generate_icon ROOT size).
Proof.
  unfold generate_icon.
  apply extends_log_bind; [apply extends_log_lift|]. intros r.
  apply extends_log_bind; [apply extends_log_lift|]. intros p.
  apply extends_log_bind; [apply extends_log_Image_open|]. intros opened.
  apply extends_log_ret.
Qed.

Lemma extends_log_Image_save im p fmt sizes others :
  extends_log (Image_save im p fmt sizes others).
Proof.
  intros w. unfold Image_save.
  destruct (is_dir p w); [now exists []|].
  destruct (negb _); [now exists []|].
  now eexists [_].
Qed.

(** Whatever happens, the first thing a run does is make the icons
    directory. *)
Lemma main_starts_with_mkdir w :
  exists later,
    log (snd (main ROOT w)) = later ++ EMkdir (ICONS_DIR ROOT) :: log w.
Proof.
  unfold main. unfold bind at 1.
  destruct (Path_mkdir_frame (ICONS_DIR ROOT) w) as [_ Hlog].
  destruct (Path_mkdir (ICONS_DIR ROOT) w) as [[u|e] w1]; cbn [snd] in *.
  - rewrite <- Hlog.
    refine (_ w1).
    apply extends_log_bind.
    { apply extends_log_for_each. intros entry.
      apply extends_log_bind; [apply extends_log_generate_icon|]. intros icon.
      apply extends_log_bind; [apply extends_log_Image_save|]. intros _.
      apply extends_log_emit. }
    intros _. apply extends_log_bind.
    { apply extends_log_map_M, extends_log_generate_icon. }
    intros ims. apply extends_log_bind.
    { destruct ims; [apply extends_log_lift | apply extends_log_Image_save]. }
    intros _. apply extends_log_bind; [apply extends_log_emit|].
    intros _. apply extends_log_bind; [apply extends_log_generate_icon|].
    intros icns. apply extends_log_bind; [apply extends_log_Image_save|].
    intros _. apply extends_log_bind; apply extends_log_emit || (intros; apply extends_log_emit).
  - exists []. exact Hlog.
Qed.

(** The events of a successful run after the directory is made, in order. *)
Lemma after_run_log opened w :
  log (after_run ROOT opened w)
  = rev (flat_map (fun entry => [EOpen (LOGO_PATH ROOT); png_save ROOT opened entry;
                                 EPrint (png_line entry)]) png_sizes
         ++ map (fun _ => EOpen (LOGO_PATH ROOT)) ico_sizes
         ++ [ico_save ROOT opened; EPrint ico_line;
             EOpen (LOGO_PATH ROOT); icns_save ROOT opened;
             EPrint "Generated icon.icns";
             EPrint (String (Ascii.ascii_of_nat 10) "Done!")])
    ++ log w.
Proof. reflexivity. Qed.

Lemma after_run_dirs opened w : dirs (after_run ROOT opened w) = dirs w.
Proof. reflexivity. Qed.

Ltac lookup_output :=
  repeat first
    [ rewrite lookup_insert_eq; reflexivity
    | rewrite lookup_insert_ne by (unfold child; congruence) ].

Lemma after_run_files opened w :
  files (after_run ROOT opened w)
  = <[ICONS_DIR ROOT // "icon.icns" := encode ICNS [icon opened 512]]>
    (<[ICONS_DIR ROOT // "icon.ico" :=
         encode ICO (ico_frames (icon opened 256) ico_pairs (ico_others opened))]>
    (<[ICONS_DIR ROOT // "icon.png" := encode PNG [icon opened 512]]>
    (<[ICONS_DIR ROOT // "512x512.png" := encode PNG [icon opened 512]]>
    (<[ICONS_DIR ROOT // "128x128@2x.png" := encode PNG [icon opened 256]]>
    (<[ICONS_DIR ROOT // "128x128.png" := encode PNG [icon opened 128]]>
    (<[ICONS_DIR ROOT // "64x64.png" := encode PNG [icon opened 64]]>
    (<[ICONS_DIR ROOT // "32x32.png" := encode PNG [icon opened 32]]>
       (files w)))))))).
Proof. reflexivity. Qed.

Lemma after_run_png_file opened w entry :
  In entry png_sizes ->
  files (after_run ROOT opened w) !! (ICONS_DIR ROOT // fst entry)
  = Some (encode PNG [icon opened (snd entry)]).
Proof.
  intros Hin. rewrite after_run_files.
  unfold png_sizes in Hin.
  destruct Hin as [<-|[<-|[<-|[<-|[<-|[<-|[]]]]]]]; cbn [fst snd]; lookup_output.
Qed.

Lemma after_run_ico_file opened w :
  files (after_run ROOT opened w) !! (ICONS_DIR ROOT // "icon.ico")
  = Some (encode ICO (ico_frames (icon opened 256) ico_pairs (ico_others opened))).
Proof. rewrite after_run_files. lookup_output. Qed.

Lemma after_run_other_file opened w p :
  (forall name, In name output_names -> p <> ICONS_DIR ROOT // name) ->
  files (after_run ROOT opened w) !! p = files w !! p.
Proof.
  intros Hp. rewrite after_run_files.
  rewrite !lookup_insert_ne; [reflexivity|..];
    apply not_eq_sym, Hp; unfold output_names, png_sizes;
    repeat (first [left; reflexivity | right]).
Qed.

End RunShape.

(** ** The ICO container *)

Section IcoFacts.

Context {Pil : Pillow} {Laws : PillowLaws Pil}.

Lemma find_icon opened sizes s :
  In s sizes ->
  List.find (fun q => size_eqb (im_size q) (s, s)) (map (icon opened) sizes)
  = Some (icon opened s).
Proof.
  induction sizes as [|a sizes IH]; intros Hin; [destruct Hin|].
  cbn [map List.find]. rewrite icon_size. unfold size_eqb. cbn [fst snd].
  destruct (Z.eqb_spec a s) as [->|Hne]; [reflexivity|].
  cbn [andb]. apply IH. destruct Hin as [Heq|Hin]; [congruence|exact Hin].
Qed.

Lemma ico_frames_supplied opened wanted :
  Forall (fun s => s <= 256 /\ In s ico_sizes) wanted ->
  flat_map
    (fun size =>
       if (fst size >? im_width (icon opened 256))
          || (snd size >? im_height (icon opened 256))
          || (fst size >? 256) || (snd size >? 256)
       then []
       else match List.find (fun q => size_eqb (im_size q) size)
                            (icon opened 256 :: ico_others opened) with
            | Some q => [q]
            | None => [thumbnail (icon opened 256) size]
            end)
    (map (fun s => (s, s)) wanted)
  = map (icon opened) wanted.
Proof.
  induction wanted as [|s wanted IH]; intros Hall; [reflexivity|].
  apply Forall_cons in Hall as [[Hle Hin] Hall].
  cbn [map flat_map]. rewrite (IH Hall). cbn [fst snd].
  rewrite icon_width, icon_height.
  assert (Hgt : (s >? 256) = false) by (rewrite Z.gtb_ltb; apply Z.ltb_ge; lia).
  rewrite Hgt. cbn [orb].
  change (icon opened 256 :: ico_others opened) with (map (icon opened) ico_sizes).
  rewrite (find_icon opened ico_sizes s Hin).
  reflexivity.
Qed.

(** Every requested size has its own composed icon: none is scaled from
    the base image. *)
Lemma ico_frames_run opened :
  ico_frames (icon opened 256) ico_pairs (ico_others opened)
  = map (icon opened) [16; 24; 32; 48; 64; 256].
Proof.
  unfold ico_frames.
  change (sorted_set ico_pairs) with (map (fun s => (s, s)) [16; 24; 32; 48; 64; 256]).
  apply ico_frames_supplied.
  repeat (apply Forall_cons; split;
          [split; [lia | unfold ico_sizes; repeat (first [left; reflexivity | right])]|]).
  constructor.
Qed.

End IcoFacts.

(** * The claims of the specification *)

(** C1, as stated, fails: the 128-pixel icon gets radius 20 where rounding
    the product gives 21, and the 32-pixel icon gets padding 1 where
    rounding gives 2. *)
Lemma radius_is_not_rounded :
  radius 128 = Ok 20 /\ rounded_ratio 128 CORNER_RADIUS_RATIO = Ok 21
  /\ radius 128 <> rounded_ratio 128 CORNER_RADIUS_RATIO
  /\ padding 32 = Ok 1 /\ rounded_ratio 32 LOGO_PADDING_RATIO = Ok 2
  /\ padding 32 <> rounded_ratio 32 LOGO_PADDING_RATIO.
Proof. vm_compute. repeat split; discriminate. Qed.

(** C1, amended: for every size below 65536 the corner radius is the
    integer part of [size * 0.164] and the padding the integer part of
    [size * 0.05]: [int] truncates the float product, and the result is the
    floor of the exact decimal product. *)
Theorem radius_padding_truncate size :
  0 <= size < 65536 ->
  radius size = Ok (size * 164 / 1000) /\ padding size = Ok (size * 5 / 100).
Proof.
  intros H. split; [apply radius_floor | apply padding_floor]; exact H.
Qed.

(** C2, as stated, fails: a run on the reference checkout decodes the
    logo thirteen times, not once. *)
Lemma logo_decoded_thirteen_times :
  fst (@main Reference.pillow Reference.root Reference.checkout) = Ok tt
  /\ opens (log (snd (@main Reference.pillow Reference.root Reference.checkout))) = 13%nat
  /\ opens (log (snd (@main Reference.pillow Reference.root Reference.checkout))) <> 1%nat.
Proof. vm_compute. repeat split; discriminate. Qed.

(** C3, as stated, fails: in the 512-pixel background layer the radius is 83
    and pixel (40, 40) lies in the corner square of side 83 / 2 = 41, yet it
    is fully opaque. *)
Lemma corner_square_reaches_inside :
  radius 512 = Ok 83
  /\ in_corner_square 512 (83 / 2) 40 40
  /\ alpha (@background Reference.pillow 512 83) 40 40 = 255
  /\ alpha (@background Reference.pillow 512 83) 40 40 <> 0.
Proof.
  split; [vm_compute; reflexivity|]. split; [unfold in_corner_square; change (83 / 2) with 41; lia|].
  split; [vm_compute; reflexivity | vm_compute; discriminate].
Qed.

Section Claims.

Context {Pil : Pillow} {Laws : PillowLaws Pil}.
Variable ROOT : Path.

(** C2, amended: the logo is opened and decoded inside every
    icon-composition call, once per call, and the image decoded there is
    the one that call resizes; a full run makes thirteen calls (six PNG,
    six ICO, one ICNS) and so decodes the logo thirteen times. *)
Theorem logo_decoded_in_every_call w opened :
  logo_image ROOT w = Some opened ->
  writable ROOT w = true ->
  (forall size w', 0 <= size < 65536 -> logo_image ROOT w' = Some opened ->
     fst (generate_icon ROOT size w') = Ok (icon opened size)
     /\ log (snd (generate_icon ROOT size w')) = EOpen (LOGO_PATH ROOT) :: log w')
  /\ fst (main ROOT w) = Ok tt
  /\ opens (log (snd (main ROOT w))) = (opens (log w) + 13)%nat.
Proof.
  intros Hl Hw. split.
  - intros size w' Hs Hl'. now rewrite (generate_icon_ok ROOT size w' opened Hs Hl').
  - destruct (main_ok ROOT w opened Hl Hw) as (w1 & _ & _ & Hlog & Hrun).
    rewrite Hrun. split; [reflexivity|]. cbn [snd].
    rewrite after_run_log, Hlog. unfold opens.
    rewrite List.filter_app, length_app. cbn [List.filter is_open].
    rewrite Nat.add_comm. f_equal.
Qed.

(** C3, amended: in the background-only layer of an icon with positive
    radius, the corner square of side [s] at each of the four corners is
    fully transparent whenever the resampling windows of its pixels stay
    beyond the corner arc of the 4x mask: [4 s + 10 < 4 radius] and
    [(4 radius + 1)^2 <= 2 (4 radius - 4 s - 10)^2]. *)
Theorem background_corners_transparent size r s x y :
  1 <= size < 65536 ->
  radius size = Ok r -> 0 < r ->
  4 * s + 10 < 4 * r ->
  (4 * r + 1) ^ 2 <= 2 * (4 * r - 4 * s - 10) ^ 2 ->
  in_corner_square size s x y ->
  alpha (background size r) x y = 0.
Proof.
  intros Hsize Hr Hpos Hs Hfar Hsq.
  destruct (radius_separate size r Hsize Hr) as [_ Hsep].
  destruct Hsq as (Hx & Hy & Hcx & Hcy).
  apply background_alpha_zero; try lia.
  apply (mask_corner_zero size r s); try lia.
  now repeat split.
Qed.

(** The other side of C3: away from the corners the layer is opaque. *)
Lemma background_interior_opaque size r s x y :
  1 <= size < 65536 ->
  radius size = Ok r -> 0 < r ->
  11 <= 4 * s ->
  2 * (4 * r - 4 * s + 11) ^ 2 <= (4 * r - 1) ^ 2 ->
  s <= x < size - s -> s <= y < size - s ->
  alpha (background size r) x y = 255.
Proof.
  intros Hsize Hr Hpos Hs Hnear Hx Hy.
  destruct (radius_separate size r Hsize Hr) as [_ Hsep].
  apply background_alpha_full; try lia.
  apply (mask_interior_full size r s); lia.
Qed.

(** C4: for every size from 1 to 65535, with a readable logo, the
    composer returns an RGBA image of exactly size x size pixels. *)
Theorem generate_icon_size_mode size w opened :
  1 <= size < 65536 ->
  logo_image ROOT w = Some opened ->
  exists img, fst (generate_icon ROOT size w) = Ok img
              /\ im_mode img = RGBA
              /\ im_width img = size /\ im_height img = size.
Proof.
  intros Hs Hl. exists (icon opened size).
  rewrite (generate_icon_ok ROOT size w opened) by (lia || exact Hl).
  split; [reflexivity|]. split; [apply compose_mode|].
  split; [apply icon_width | apply icon_height].
Qed.


(** C5: a run with a readable logo, in a writable place, returns
    normally and saves exactly six PNG files, in this order and with these
    composites; the two 512-pixel files hold the same bytes. *)
Theorem main_writes_six_pngs w opened :
  logo_image ROOT w = Some opened ->
  writable ROOT w = true ->
  exists w' later,
    main ROOT w = (Ok tt, w')
    /\ log w' = later ++ log w
    /\ List.filter (is_save PNG) (rev later)
       = [ ESave (ICONS_DIR ROOT // "32x32.png") PNG (icon opened 32) [] [];
           ESave (ICONS_DIR ROOT // "64x64.png") PNG (icon opened 64) [] [];
           ESave (ICONS_DIR ROOT // "128x128.png") PNG (icon opened 128) [] [];
           ESave (ICONS_DIR ROOT // "128x128@2x.png") PNG (icon opened 256) [] [];
           ESave (ICONS_DIR ROOT // "512x512.png") PNG (icon opened 512) [] [];
           ESave (ICONS_DIR ROOT // "icon.png") PNG (icon opened 512) [] [] ]
    /\ (forall name size,
          In (name, size)
             [ ("32x32.png", 32); ("64x64.png", 64); ("128x128.png", 128);
               ("128x128@2x.png", 256); ("512x512.png", 512); ("icon.png", 512) ] ->
          files w' !! (ICONS_DIR ROOT // name) = Some (encode PNG [icon opened size])
          /\ im_size (icon opened size) = (size, size))
    /\ files w' !! (ICONS_DIR ROOT // "512x512.png")
       = files w' !! (ICONS_DIR ROOT // "icon.png").
Proof.
  intros Hl Hw.
  destruct (main_ok ROOT w opened Hl Hw) as (w1 & _ & _ & Hlog & Hrun).
  eexists _, _. split; [exact Hrun|]. split.
  { rewrite after_run_log, Hlog.
    rewrite (app_assoc _ [EMkdir (ICONS_DIR ROOT)] (log w)). reflexivity. }
  split.
  { rewrite rev_app_distr, rev_involutive. reflexivity. }
  split.
  - intros name size Hin. split; [|apply icon_size].
    exact (after_run_png_file ROOT opened w1 (name, size) Hin).
  - rewrite (after_run_png_file ROOT opened w1 ("512x512.png", 512)),
            (after_run_png_file ROOT opened w1 ("icon.png", 512));
      [reflexivity | ..]; unfold png_sizes;
      repeat (first [left; reflexivity | right]).
Qed.

(** C6: the ICO file is saved from the 256-pixel icon with the six sizes
    requested and the five smaller icons appended; the container embeds
    exactly those six composed icons, one of each requested size. *)
Theorem main_writes_ico w opened :
  logo_image ROOT w = Some opened ->
  writable ROOT w = true ->
  exists w' later,
    main ROOT w = (Ok tt, w')
    /\ log w' = later ++ log w
    /\ List.filter (is_save ICO) (rev later)
       = [ ESave (ICONS_DIR ROOT // "icon.ico") ICO (icon opened 256)
                 [(256, 256); (64, 64); (48, 48); (32, 32); (24, 24); (16, 16)]
                 [icon opened 64; icon opened 48; icon opened 32;
                  icon opened 24; icon opened 16] ]
    /\ frames ICO (icon opened 256)
              [(256, 256); (64, 64); (48, 48); (32, 32); (24, 24); (16, 16)]
              [icon opened 64; icon opened 48; icon opened 32;
               icon opened 24; icon opened 16]
       = [icon opened 16; icon opened 24; icon opened 32;
          icon opened 48; icon opened 64; icon opened 256]
    /\ map im_size [icon opened 16; icon opened 24; icon opened 32;
                    icon opened 48; icon opened 64; icon opened 256]
       = [(16, 16); (24, 24); (32, 32); (48, 48); (64, 64); (256, 256)]
    /\ files w' !! (ICONS_DIR ROOT // "icon.ico")
       = Some (encode ICO [icon opened 16; icon opened 24; icon opened 32;
                           icon opened 48; icon opened 64; icon opened 256]).
Proof.
  intros Hl Hw.
  destruct (main_ok ROOT w opened Hl Hw) as (w1 & _ & _ & Hlog & Hrun).
  eexists _, _. split; [exact Hrun|]. split.
  { rewrite after_run_log, Hlog.
    rewrite (app_assoc _ [EMkdir (ICONS_DIR ROOT)] (log w)). reflexivity. }
  split.
  { rewrite rev_app_distr, rev_involutive. reflexivity. }
  split; [exact (ico_frames_run opened)|].
  split.
  - cbn [map]. now rewrite !icon_size.
  - rewrite after_run_ico_file. now rewrite ico_frames_run.
Qed.

(** C7: two runs that read the same logo bytes, each in a writable
    place, both return normally and leave the same bytes in every PNG
    file, whatever else the two worlds hold. *)
Theorem png_outputs_deterministic w1 w2 opened :
  files w1 !! LOGO_PATH ROOT = files w2 !! LOGO_PATH ROOT ->
  logo_image ROOT w1 = Some opened ->
  writable ROOT w1 = true ->
  writable ROOT w2 = true ->
  fst (main ROOT w1) = Ok tt
  /\ fst (main ROOT w2) = Ok tt
  /\ forall name size, In (name, size) png_sizes ->
       files (snd (main ROOT w1)) !! (ICONS_DIR ROOT // name)
       = files (snd (main ROOT w2)) !! (ICONS_DIR ROOT // name)
       /\ is_Some (files (snd (main ROOT w1)) !! (ICONS_DIR ROOT // name)).
Proof.
  intros Hsame Hl1 Hw1 Hw2.
  assert (Hl2 : logo_image ROOT w2 = Some opened)
    by (unfold logo_image in *; now rewrite <- Hsame).
  destruct (main_ok ROOT w1 opened Hl1 Hw1) as (v1 & _ & _ & _ & Hrun1).
  destruct (main_ok ROOT w2 opened Hl2 Hw2) as (v2 & _ & _ & _ & Hrun2).
  rewrite Hrun1, Hrun2. cbn [fst snd]. split; [reflexivity|]. split; [reflexivity|].
  intros name size Hin.
  rewrite (after_run_png_file ROOT opened v1 (name, size) Hin).
  rewrite (after_run_png_file ROOT opened v2 (name, size) Hin).
  split; [reflexivity | now eexists].
Qed.

(** A second run right after a first one is such a pair of runs: the first
    leaves the logo as it was and the place writable. *)
Lemma rerun_ready w opened :
  logo_image ROOT w = Some opened ->
  writable ROOT w = true ->
  files (snd (main ROOT w)) !! LOGO_PATH ROOT = files w !! LOGO_PATH ROOT
  /\ writable ROOT (snd (main ROOT w)) = true.
Proof.
  intros Hl Hw.
  destruct (main_ok ROOT w opened Hl Hw) as (w1 & Hmk & Hf & _ & Hrun).
  rewrite Hrun. cbn [snd]. split.
  - rewrite after_run_other_file, Hf; [reflexivity|].
    intros name _ Heq. symmetry in Heq. now apply output_not_logo in Heq.
  - assert (Hc : creatable (ICONS_DIR ROOT) w = true)
      by (unfold writable in Hw; now apply andb_true_iff in Hw as [Hc _]).
    destruct (Path_mkdir_ok _ w Hc) as (w1' & Hmk' & _ & _ & Hd & _ & Honly & _).
    rewrite Hmk in Hmk'. injection Hmk' as <-.
    unfold writable. apply andb_true_iff. split.
    + assert (Hgen : forall p, p `suffix_of` ICONS_DIR ROOT ->
                creatable p (after_run ROOT opened w1) = creatable p w).
      { induction p as [|a p IH]; intros Hp; [reflexivity|].
        cbn [creatable]. rewrite IH by (eapply suffix_cons_l; exact Hp).
        f_equal. f_equal. unfold is_file.
        rewrite after_run_other_file, Hf; [reflexivity|].
        intros name _ Heq. rewrite Heq in Hp.
        apply suffix_length in Hp. cbn [child length] in Hp. lia. }
      rewrite Hgen by reflexivity. exact Hc.
    + apply forallb_forall. intros name Hin. apply negb_true_iff.
      change (is_dir (ICONS_DIR ROOT // name) w1 = false).
      destruct (is_dir (ICONS_DIR ROOT // name) w1) eqn:Hn; [|reflexivity].
      apply Honly in Hn as [Hn|Hn].
      * now rewrite (writable_outputs ROOT w name Hw Hin) in Hn.
      * apply suffix_length in Hn. cbn [child length] in Hn. lia.
Qed.

(** C8: without a readable logo (missing or undecodable) the run raises,
    the exception reaches the top and the process ends with status 1;
    no file is written, the only events are the mkdir and at most one
    attempt to open the logo, and an icons directory without files stays
    without files. *)
Theorem missing_logo_aborts_before_output w :
  logo_image ROOT w = None ->
  exists e w',
    main ROOT w = (Raise e, w')
    /\ fst (run_script ROOT w) = 1
    /\ files w' = files w
    /\ (log w' = EMkdir (ICONS_DIR ROOT) :: log w
        \/ log w' = EOpen (LOGO_PATH ROOT) :: EMkdir (ICONS_DIR ROOT) :: log w)
    /\ ((forall p, ICONS_DIR ROOT `suffix_of` p -> files w !! p = None) ->
        forall p, ICONS_DIR ROOT `suffix_of` p -> files w' !! p = None).
Proof.
  intros Hl.
  destruct (main_no_logo ROOT w Hl) as (e & w' & Hrun & Hf & _ & Hlog).
  exists e, w'. split; [exact Hrun|]. split.
  { unfold run_script. now rewrite Hrun. }
  split; [exact Hf|]. split; [exact Hlog|].
  intros Hfresh p Hp. rewrite Hf. now apply Hfresh.
Qed.

(** C9: for sizes 1 to 19 the padding is 0, so the logo is resized to the
    full size and pasted at the origin: its box is the whole icon, and
    each pixel shows the background layer where the resized logo is
    fully transparent and the logo where it is fully opaque. *)
Theorem small_icon_has_no_border size w opened :
  1 <= size <= 19 ->
  logo_image ROOT w = Some opened ->
  padding size = Ok 0
  /\ exists r img,
       let logo := resize (convert opened RGBA) (size, size) in
       radius size = Ok r
       /\ fst (generate_icon ROOT size w) = Ok img
       /\ img = paste (background size r) logo (0, 0) logo
       /\ im_size logo = (size, size)
       /\ forall x y, 0 <= x < size -> 0 <= y < size ->
            in_box logo (0, 0) x y
            /\ (mask_value logo x y = 0 ->
                forall b, im_band img b x y = im_band (background size r) b x y)
            /\ (mask_value logo x y = 255 ->
                forall b, im_band img b x y = im_band logo b x y).
Proof.
  intros Hs Hl.
  assert (Hp : size * 5 / 100 = 0) by (apply Z.div_small; lia).
  split; [rewrite padding_floor by lia; now rewrite Hp|].
  exists (size * 164 / 1000), (icon opened size). cbv zeta.
  split; [apply radius_floor; lia|].
  split; [now rewrite (generate_icon_ok ROOT size w opened) by (lia || exact Hl)|].
  assert (Hicon : icon opened size
                  = paste (background size (size * 164 / 1000))
                          (resize (convert opened RGBA) (size, size)) (0, 0)
                          (resize (convert opened RGBA) (size, size))).
  { unfold icon, compose, logo_resized. rewrite Hp.
    now replace (size - 2 * 0) with size by lia. }
  split; [exact Hicon|].
  set (logo := resize (convert opened RGBA) (size, size)) in *.
  assert (Hsize : im_size logo = (size, size)).
  { unfold im_size, logo. now rewrite resize_width, resize_height by lia. }
  split; [exact Hsize|].
  injection Hsize as Hlw Hlh.
  intros x y Hx Hy.
  assert (Hbox : in_box logo (0, 0) x y) by (unfold in_box; cbn [fst snd]; lia).
  pose proof (background_size size (size * 164 / 1000)) as Hbg.
  injection Hbg as Hbw Hbh.
  split; [exact Hbox|]. rewrite Hicon. split.
  - intros Hm b. apply paste_transparent; try reflexivity; try lia; try exact Hbox.
    cbn [fst snd]. now rewrite !Z.sub_0_r.
  - intros Hm b. rewrite paste_opaque; try reflexivity; try lia; try exact Hbox.
    + cbn [fst snd]. now rewrite !Z.sub_0_r.
    + unfold logo. now rewrite resize_mode, convert_mode, background_mode.
    + cbn [fst snd]. now rewrite !Z.sub_0_r.
Qed.

(** C10: making the icons directory is the first thing a run does,
    whatever follows; a run that then fails for want of a logo leaves the
    directory, and in a closed tree its parents, in existence; and where
    the directory already exists the call returns normally and changes
    nothing. *)
Theorem icons_dir_made_first w :
  (exists later, log (snd (main ROOT w)) = later ++ EMkdir (ICONS_DIR ROOT) :: log w)
  /\ (logo_image ROOT w = None -> creatable (ICONS_DIR ROOT) w = true ->
      exists e w', main ROOT w = (Raise e, w')
                   /\ is_dir (ICONS_DIR ROOT) w' = true
                   /\ (dirs_closed w = true ->
                       forall q, q `suffix_of` ICONS_DIR ROOT -> is_dir q w' = true))
  /\ (is_dir (ICONS_DIR ROOT) w = true ->
      Path_mkdir (ICONS_DIR ROOT) w = (Ok tt, logged (EMkdir (ICONS_DIR ROOT)) w)).
Proof.
  split; [apply main_starts_with_mkdir|]. split; [|apply Path_mkdir_existing].
  intros Hl Hc.
  destruct (main_no_logo ROOT w Hl) as (e & w' & Hrun & _ & Hdirs & _).
  destruct (Path_mkdir_ok (ICONS_DIR ROOT) w Hc) as (w1 & Hmk & _ & _ & Hd & _ & _ & Hanc).
  rewrite Hmk in Hdirs. cbn [snd] in Hdirs.
  assert (Hsame : forall q, is_dir q w' = is_dir q w1)
    by (intros [|a q]; cbn; [reflexivity | now rewrite Hdirs]).
  exists e, w'. split; [exact Hrun|]. split; [now rewrite Hsame|].
  intros Hcl q Hq. rewrite Hsame. now apply Hanc.
Qed.

End Claims.

(** * The claims on the reference checkout

    Each property above that has a premise is applied here to the
    executable Pillow and a concrete checkout, with the premises
    evaluated. *)

Module Witness.

Import Reference.

Lemma checkout_logo : logo_image root checkout = Some logo.
Proof. vm_compute. reflexivity. Defined.

Lemma checkout_writable : writable root checkout = true.
Proof. vm_compute. reflexivity. Defined.

Lemma radius_padding_truncate_witness :
  0 <= 128 < 65536 /\ radius 128 = Ok 20 /\ padding 128 = Ok 6.
Proof. split; [lia | apply (radius_padding_truncate 128); lia]. Defined.

Lemma logo_decoded_in_every_call_witness :
  logo_image root checkout = Some logo
  /\ writable root checkout = true
  /\ fst (main root checkout) = Ok tt
  /\ opens (log (snd (main root checkout))) = 13%nat.
Proof.
  split; [exact checkout_logo|]. split; [exact checkout_writable|].
  apply (logo_decoded_in_every_call root checkout logo);
    [exact checkout_logo | exact checkout_writable].
Defined.

Lemma background_corners_transparent_witness :
  radius 512 = Ok 83
  /\ in_corner_square 512 21 20 491
  /\ alpha (background 512 83) 20 491 = 0.
Proof.
  split; [vm_compute; reflexivity|].
  split; [unfold in_corner_square; lia|].
  apply (background_corners_transparent (Laws := ReferenceLaws.laws) 512 83 21 20 491);
    [lia | vm_compute; reflexivity | lia | lia | lia | unfold in_corner_square; lia].
Defined.

Lemma generate_icon_size_mode_witness :
  logo_image root checkout = Some logo
  /\ exists img, fst (generate_icon root 64 checkout) = Ok img
                 /\ im_mode img = RGBA /\ im_width img = 64 /\ im_height img = 64.
Proof.
  split; [exact checkout_logo|].
  apply (generate_icon_size_mode (Laws := ReferenceLaws.laws) root 64 checkout logo);
    [lia | exact checkout_logo].
Defined.

Lemma main_writes_six_pngs_witness :
  logo_image root checkout = Some logo
  /\ writable root checkout = true
  /\ exists w', main root checkout = (Ok tt, w')
                /\ files w' !! (ICONS_DIR root // "512x512.png")
                   = files w' !! (ICONS_DIR root // "icon.png").
Proof.
  split; [exact checkout_logo|]. split; [exact checkout_writable|].
  destruct (main_writes_six_pngs (Laws := ReferenceLaws.laws) root checkout logo
              checkout_logo checkout_writable)
    as (w' & later & Hrun & _ & _ & _ & Hsame).
  exists w'. split; [exact Hrun | exact Hsame].
Defined.

Lemma main_writes_ico_witness :
  logo_image root checkout = Some logo
  /\ writable root checkout = true
  /\ exists w', main root checkout = (Ok tt, w')
                /\ files w' !! (ICONS_DIR root // "icon.ico")
                   = Some (encode ICO [icon logo 16; icon logo 24; icon logo 32;
                                       icon logo 48; icon logo 64; icon logo 256]).
Proof.
  split; [exact checkout_logo|]. split; [exact checkout_writable|].
  destruct (main_writes_ico (Laws := ReferenceLaws.laws) root checkout logo
              checkout_logo checkout_writable)
    as (w' & later & Hrun & _ & _ & _ & _ & Hfile).
  exists w'. split; [exact Hrun | exact Hfile].
Defined.

Lemma png_outputs_deterministic_witness :
  files checkout !! LOGO_PATH root = files stale_checkout !! LOGO_PATH root
  /\ writable root stale_checkout = true
  /\ forall name size, In (name, size) png_sizes ->
       files (snd (main root checkout)) !! (ICONS_DIR root // name)
       = files (snd (main root stale_checkout)) !! (ICONS_DIR root // name).
Proof.
  assert (Hsame : files checkout !! LOGO_PATH root
                  = files stale_checkout !! LOGO_PATH root)
    by (vm_compute; reflexivity).
  assert (Hstale : writable root stale_checkout = true)
    by (vm_compute; reflexivity).
  split; [exact Hsame|]. split; [exact Hstale|].
  intros name size Hin.
  destruct (png_outputs_deterministic root checkout stale_checkout logo
              Hsame checkout_logo checkout_writable Hstale)
    as (_ & _ & Hall).
  exact (proj1 (Hall name size Hin)).
Defined.

Lemma missing_logo_aborts_before_output_witness :
  logo_image root bare_checkout = None
  /\ fst (run_script root bare_checkout) = 1
  /\ files (snd (main root bare_checkout)) = files bare_checkout.
Proof.
  assert (Hl : logo_image root bare_checkout = None) by (vm_compute; reflexivity).
  split; [exact Hl|].
  destruct (missing_logo_aborts_before_output root bare_checkout Hl)
    as (e & w' & Hrun & Hexit & Hfiles & _).
  split; [exact Hexit|]. rewrite Hrun. exact Hfiles.
Defined.

Lemma small_icon_has_no_border_witness :
  logo_image root checkout = Some logo
  /\ padding 16 = Ok 0
  /\ fst (generate_icon root 16 checkout)
     = Ok (paste (background 16 2) (resize (convert logo RGBA) (16, 16)) (0, 0)
                 (resize (convert logo RGBA) (16, 16))).
Proof.
  split; [exact checkout_logo|].
  destruct (small_icon_has_no_border (Laws := ReferenceLaws.laws) root 16 checkout logo
              ltac:(lia) checkout_logo)
    as (Hpad & r & img & Hr & Hrun & Himg & _).
  split; [exact Hpad|].
  assert (Hr2 : r = 2) by (vm_compute in Hr; congruence).
  rewrite Hrun, Himg, Hr2. reflexivity.
Defined.

Lemma icons_dir_made_first_witness :
  logo_image root bare_checkout = None
  /\ creatable (ICONS_DIR root) bare_checkout = true
  /\ dirs_closed bare_checkout = true
  /\ is_dir (ICONS_DIR root) bare_checkout = false
  /\ is_dir (ICONS_DIR root) (snd (main root bare_checkout)) = true
  /\ is_dir (root // "src-tauri") (snd (main root bare_checkout)) = true.
Proof.
  assert (Hl : logo_image root bare_checkout = None) by (vm_compute; reflexivity).
  assert (Hc : creatable (ICONS_DIR root) bare_checkout = true)
    by (vm_compute; reflexivity).
  assert (Hcl : dirs_closed bare_checkout = true) by (vm_compute; reflexivity).
  split; [exact Hl|]. split; [exact Hc|]. split; [exact Hcl|].
  split; [vm_compute; reflexivity|].
  destruct (proj1 (proj2 (icons_dir_made_first root bare_checkout)) Hl Hc)
    as (e & w' & Hrun & Hd & Hanc).
  rewrite Hrun. cbn [snd]. split; [exact Hd|].
  apply (Hanc Hcl). now exists ["icons"].
Defined.

End Witness.

(** ** What a run leaves alone *)

Lemma writes_only_pure {A} S (m : M A) :
  (forall w, files (snd (m w)) = files w) -> writes_only S m.
Proof. intros H w p. rewrite H. tauto. Qed.

Lemma writes_only_bind {A B} S (m : M A) (k : A -> M B) :
  writes_only S m -> (forall a, writes_only S (k a)) -> writes_only S (bind m k).
Proof.
  intros Hm Hk w p. unfold bind. destruct (Hm w p) as [H1 H2].
  destruct (m w) as [[a|e] w1]; cbn [snd] in *; [|tauto].
  destruct (Hk a w1 p) as [H3 H4]. split.
  - intros Hp. now rewrite H3, H1.
  - auto.
Qed.

Lemma writes_only_for_each {A} S (l : list A) (body : A -> M unit) :
  (forall a, writes_only S (body a)) -> writes_only S (for_each l body).
Proof.
  intros Hb. induction l as [|a l IH]; cbn [for_each].
  - now apply writes_only_pure.
  - apply writes_only_bind; auto.
Qed.

Lemma writes_only_map_M {A B} S (f : A -> M B) (l : list A) :
  (forall a, writes_only S (f a)) -> writes_only S (map_M f l).
Proof.
  intros Hf. induction l as [|a l IH]; cbn [map_M].
  - now apply writes_only_pure.
  - apply writes_only_bind; [auto|]. intros b.
    apply writes_only_bind; [auto|]. intros bs. now apply writes_only_pure.
Qed.

Lemma dirs_grown_same p w w' : dirs w' = dirs w -> dirs_grown p w w'.
Proof.
  intros H q. assert (Hq : is_dir q w' = is_dir q w)
    by (destruct q; cbn; [reflexivity | now rewrite H]).
  rewrite Hq. tauto.
Qed.

Lemma dirs_grown_trans p w1 w2 w3 :
  dirs_grown p w1 w2 -> dirs_grown p w2 w3 -> dirs_grown p w1 w3.
Proof.
  intros H12 H23 q. destruct (H12 q) as [A B], (H23 q) as [C D]. split.
  - auto.
  - intros H. apply D in H as [H|H]; [auto | now right].
Qed.

Lemma dirs_grown_parent a p w w' : dirs_grown p w w' -> dirs_grown (a :: p) w w'.
Proof.
  intros H q. destruct (H q) as [A B]. split; [exact A|].
  intros Hq. apply B in Hq as [Hq|Hq]; [now left|right].
  now apply suffix_cons_r.
Qed.

Lemma os_mkdir_grown p w : dirs_grown p w (snd (os_mkdir p w)).
Proof.
  unfold os_mkdir. destruct p as [|a parent]; [now apply dirs_grown_same|].
  destruct (_ || _); [now apply dirs_grown_same|].
  destruct (is_dir parent w).
  - cbn [snd]. intros q. rewrite is_dir_created. split; [tauto|].
    intros [->|H]; [now right | now left].
  - destruct (is_file parent w); now apply dirs_grown_same.
Qed.

Lemma mkdir_exist_ok_grown p w : dirs_grown p w (snd (mkdir_exist_ok p w)).
Proof.
  unfold mkdir_exist_ok. pose proof (os_mkdir_grown p w) as H.
  destruct (os_mkdir p w) as [[u|e] w1]; cbn [snd] in *; [exact H|].
  destruct e; try exact H; now destruct (is_dir p w1).
Qed.

Lemma mkdir_parents_grown p : forall w, dirs_grown p w (snd (mkdir_parents p w)).
Proof.
  induction p as [|a parent IH]; intros w.
  - cbn. now apply dirs_grown_same.
  - cbn [mkdir_parents]. pose proof (os_mkdir_grown (a :: parent) w) as H.
    destruct (os_mkdir (a :: parent) w) as [[u|e] w1]; cbn [snd] in *; [exact H|].
    assert (Hother : dirs_grown (a :: parent) w
                       (snd (if is_dir (a :: parent) w1
                             then (Ok (), w1) else (@Raise unit e, w1))))
      by now destruct (is_dir (a :: parent) w1).
    destruct e; try exact Hother.
    pose proof (IH w1) as IH1.
    destruct (mkdir_parents parent w1) as [[u|e] w2]; cbn [snd] in *.
    + eapply dirs_grown_trans; [exact H|].
      eapply dirs_grown_trans; [apply dirs_grown_parent; exact IH1|].
      apply mkdir_exist_ok_grown.
    + eapply dirs_grown_trans; [exact H|]. now apply dirs_grown_parent.
Qed.

Lemma grows_dirs_same {A} p (m : M A) :
  (forall w, dirs (snd (m w)) = dirs w) -> grows_dirs p m.
Proof. intros H w. apply (dirs_grown_same p), H. Qed.

Lemma grows_dirs_bind {A B} p (m : M A) (k : A -> M B) :
  grows_dirs p m -> (forall a, grows_dirs p (k a)) -> grows_dirs p (bind m k).
Proof.
  intros Hm Hk w. unfold bind. pose proof (Hm w) as H1.
  destruct (m w) as [[a|e] w1]; cbn [snd] in *; [|exact H1].
  exact (dirs_grown_trans p w w1 _ H1 (Hk a w1)).
Qed.

Lemma grows_dirs_for_each {A} p (l : list A) (body : A -> M unit) :
  (forall a, grows_dirs p (body a)) -> grows_dirs p (for_each l body).
Proof.
  intros Hb. induction l as [|a l IH]; cbn [for_each].
  - now apply grows_dirs_same.
  - apply grows_dirs_bind; auto.
Qed.

Lemma grows_dirs_map_M {A B} p (f : A -> M B) (l : list A) :
  (forall a, grows_dirs p (f a)) -> grows_dirs p (map_M f l).
Proof.
  intros Hf. induction l as [|a l IH]; cbn [map_M].
  - now apply grows_dirs_same.
  - apply grows_dirs_bind; [auto|]. intros b.
    apply grows_dirs_bind; [auto|]. intros bs. now apply grows_dirs_same.
Qed.

Section Frames.

Context {Pil : Pillow}.
Variable ROOT : Path.

Lemma Image_open_reads p w :
  files (snd (Image_open p w)) = files w /\ dirs (snd (Image_open p w)) = dirs w.
Proof.
  unfold Image_open, bind, emit. cbn [files dirs].
  destruct (files w !! p) as [bytes|]; [destruct (decode bytes)|destruct (is_dir p _)];
    easy.
Qed.

(** Composing an icon reads the world and writes nothing. *)
Lemma generate_icon_reads size w :
  files (snd (generate_icon ROOT size w)) = files w
  /\ dirs (snd (generate_icon ROOT size w)) = dirs w.
Proof.
  unfold generate_icon, lift. unfold bind at 1.
  destruct (radius size) as [r|e]; [|easy].
  unfold bind at 1. destruct (padding size) as [p|e]; [|easy].
  unfold bind. pose proof (Image_open_reads (LOGO_PATH ROOT) w) as H.
  destruct (Image_open (LOGO_PATH ROOT) w) as [[o|e] w1]; exact H.
Qed.

Lemma Image_save_dirs im p fmt sizes others w :
  dirs (snd (Image_save im p fmt sizes others w)) = dirs w.
Proof.
  unfold Image_save. destruct (is_dir p w); [easy|]. now destruct (negb _).
Qed.

Lemma save_output im name fmt sizes others :
  In name output_names ->
  writes_only (is_output ROOT)
    (Image_save im (ICONS_DIR ROOT // name) fmt sizes others).
Proof.
  intros Hin w p. unfold Image_save.
  destruct (is_dir _ w); [tauto|]. destruct (negb _); [tauto|].
  cbn [snd files]. split.
  - intros Hp. apply lookup_insert_ne. intros <-. apply Hp. now exists name.
  - intros Hs. rewrite lookup_insert. case_decide; [now eexists | exact Hs].
Qed.

Lemma in_outputs name : In name output_names <-> In name
  ["32x32.png"; "64x64.png"; "128x128.png"; "128x128@2x.png"; "512x512.png";
   "icon.png"; "icon.ico"; "icon.icns"].
Proof. reflexivity. Qed.

(** A run, whatever happens in it, writes only its eight outputs. *)
Lemma main_writes_only : writes_only (is_output ROOT) (main ROOT).
Proof.
  unfold main.
  apply writes_only_bind.
  { apply writes_only_pure. intros w. apply Path_mkdir_frame. }
  intros _. apply writes_only_bind.
  { unfold png_sizes. cbn [for_each].
    repeat (apply writes_only_bind;
            [ apply writes_only_bind;
              [ apply writes_only_pure; intros w; apply generate_icon_reads
              | intros icon; apply writes_only_bind;
                [ apply save_output, in_outputs; cbn [fst];
                  repeat (first [left; reflexivity | right])
                | intros _; now apply writes_only_pure ] ]
            | intros _ ]).
    now apply writes_only_pure. }
  intros _. apply writes_only_bind.
  { apply writes_only_map_M. intros s.
    apply writes_only_pure. intros w. apply generate_icon_reads. }
  intros ims. apply writes_only_bind.
  { destruct ims; [now apply writes_only_pure|].
    apply save_output, in_outputs. repeat (first [left; reflexivity | right]). }
  intros _. apply writes_only_bind; [now apply writes_only_pure|].
  intros _. apply writes_only_bind.
  { apply writes_only_pure. intros w. apply generate_icon_reads. }
  intros icns. apply writes_only_bind.
  { apply save_output, in_outputs. repeat (first [left; reflexivity | right]). }
  intros _. apply writes_only_bind; [now apply writes_only_pure|].
  intros _. now apply writes_only_pure.
Qed.

(** A run removes no directory and makes none but the icons directory and
    its parents. *)
Lemma main_grows_dirs : grows_dirs (ICONS_DIR ROOT) (main ROOT).
Proof.
  unfold main.
  apply grows_dirs_bind.
  { unfold Path_mkdir. apply grows_dirs_bind; [now apply grows_dirs_same|].
    intros _ w. apply mkdir_parents_grown. }
  intros _. apply grows_dirs_bind.
  { apply grows_dirs_for_each. intros entry.
    apply grows_dirs_bind.
    { apply grows_dirs_same. intros w. apply generate_icon_reads. }
    intros icon. apply grows_dirs_bind.
    { apply grows_dirs_same. intros w. apply Image_save_dirs. }
    intros _. now apply grows_dirs_same. }
  intros _. apply grows_dirs_bind.
  { apply grows_dirs_map_M. intros s.
    apply grows_dirs_same. intros w. apply generate_icon_reads. }
  intros ims. apply grows_dirs_bind.
  { destruct ims; [now apply grows_dirs_same|].
    apply grows_dirs_same. intros w. apply Image_save_dirs. }
  intros _. apply grows_dirs_bind; [now apply grows_dirs_same|].
  intros _. apply grows_dirs_bind.
  { apply grows_dirs_same. intros w. apply generate_icon_reads. }
  intros icns. apply grows_dirs_bind.
  { apply grows_dirs_same. intros w. apply Image_save_dirs. }
  intros _. apply grows_dirs_bind; [now apply grows_dirs_same|].
  intros _. now apply grows_dirs_same.
Qed.

End Frames.

(** ** The effect of a run, blocked or not *)

Lemma is_dir_dirs p w w' : dirs w' = dirs w -> is_dir p w' = is_dir p w.
Proof. intros H. destruct p; cbn; [reflexivity | now rewrite H]. Qed.

Lemma bind_run {A B} (m : M A) (k : A -> M B) w r :
  m w = r ->
  bind m k w = match r with
               | (Ok a, w') => k a w'
               | (Raise e, w') => (Raise e, w')
               end.
Proof. intros <-. reflexivity. Qed.

Section Effect.

Context {Pil : Pillow}.
Variable ROOT : Path.

Lemma write_outputs_dirs outs w w' : forall m,
  (forall name, is_dir (ICONS_DIR ROOT // name) w' = is_dir (ICONS_DIR ROOT // name) w) ->
  write_outputs ROOT outs w' m = write_outputs ROOT outs w m.
Proof.
  induction outs as [|out outs IH]; intros m H; [reflexivity|].
  cbn [write_outputs]. rewrite H.
  destruct (is_dir _ w); [reflexivity | now apply IH].
Qed.

Lemma out_blocked_dirs w w' outs :
  (forall name, is_dir (ICONS_DIR ROOT // name) w' = is_dir (ICONS_DIR ROOT // name) w) ->
  existsb (out_blocked ROOT w') outs = existsb (out_blocked ROOT w) outs.
Proof.
  intros H. induction outs as [|out outs IH]; [reflexivity|].
  cbn [existsb]. unfold out_blocked at 1 3. now rewrite H, IH.
Qed.

Lemma write_outputs_app l1 l2 w : forall m,
  write_outputs ROOT (l1 ++ l2) w m
  = if existsb (out_blocked ROOT w) l1 then write_outputs ROOT l1 w m
    else write_outputs ROOT l2 w (write_outputs ROOT l1 w m).
Proof.
  induction l1 as [|out l1 IH]; intros m; [reflexivity|].
  cbn [app write_outputs existsb]. unfold out_blocked at 1.
  destruct (is_dir _ w); [reflexivity|]. cbn [orb]. apply IH.
Qed.

Lemma Image_save_run im p fmt sizes others w :
  is_dir (tail p) w = true ->
  Image_save im p fmt sizes others w
  = if is_dir p w then (Raise IsADirectoryError, w)
    else (Ok tt, written p (encode fmt (frames fmt im sizes others))
                         (ESave p fmt im sizes others) w).
Proof. intros Hd. unfold Image_save. now rewrite Hd. Qed.

Lemma logo_image_written opened name data e w :
  logo_image ROOT w = Some opened ->
  logo_image ROOT (written (ICONS_DIR ROOT // name) data e w) = Some opened.
Proof.
  unfold logo_image, written. cbn [files]. intros H.
  rewrite lookup_insert_ne by apply output_not_logo. exact H.
Qed.

Lemma ready_png_step_logo opened w entry :
  logo_image ROOT w = Some opened ->
  logo_image ROOT (png_step ROOT opened w entry) = Some opened.
Proof.
  intros Hl. unfold logo_image, png_step, logged, written, decoded in *.
  cbn [files]. rewrite lookup_insert_ne by apply output_not_logo. exact Hl.
Qed.

(** One turn of the PNG loop, blocked or not. *)
Lemma png_turn_run opened w entry :
  logo_image ROOT w = Some opened ->
  is_dir (ICONS_DIR ROOT) w = true ->
  0 <= snd entry < 65536 ->
  (do icon <- generate_icon ROOT (snd entry);
   exec Image_save icon (ICONS_DIR ROOT // fst entry) PNG [] [];
   print ("Generated " +:+ fst entry +:+ " (" +:+ size_label (snd entry) +:+ ")")) w
  = if is_dir (ICONS_DIR ROOT // fst entry) w
    then (Raise IsADirectoryError, decoded ROOT w)
    else (Ok tt, png_step ROOT opened w entry).
Proof.
  intros Hl Hd Hsize.
  rewrite (bind_ok _ _ _ _ _ (generate_icon_ok _ _ _ _ Hsize Hl)).
  unfold bind. rewrite Image_save_run by exact Hd.
  change (is_dir (ICONS_DIR ROOT // fst entry) (decoded ROOT w))
    with (is_dir (ICONS_DIR ROOT // fst entry) w).
  now destruct (is_dir (ICONS_DIR ROOT // fst entry) w).
Qed.

(** The PNG loop from any world in which the logo is readable and the icons
    directory exists. *)
Lemma png_loop_effect opened entries : forall w,
  logo_image ROOT w = Some opened ->
  is_dir (ICONS_DIR ROOT) w = true ->
  Forall (fun entry : string * Z => 0 <= snd entry < 65536) entries ->
  exists w',
    for_each entries (fun entry =>
      let filename := fst entry in
      let size := snd entry in
      do icon <- generate_icon ROOT size;
      exec Image_save icon (ICONS_DIR ROOT // filename) PNG [] [];
      print ("Generated " +:+ filename +:+ " (" +:+ size_label size +:+ ")")) w
    = (if existsb (out_blocked ROOT w) (map (png_out opened) entries)
       then Raise IsADirectoryError else Ok tt, w')
    /\ dirs w' = dirs w
    /\ logo_image ROOT w' = Some opened
    /\ files w' = write_outputs ROOT (map (png_out opened) entries) w (files w).
Proof.
  induction entries as [|entry entries IH]; intros w Hl Hd Hall.
  - exists w. now cbn.
  - apply Forall_cons in Hall as [Hsize Hall].
    cbn [for_each map existsb write_outputs]. unfold out_blocked at 1.
    cbn [png_out fst snd].
    erewrite bind_run by (apply (png_turn_run opened w entry Hl Hd Hsize)).
    destruct (is_dir (ICONS_DIR ROOT // fst entry) w) eqn:Hb.
    + exists (decoded ROOT w). now cbn.
    + cbn [orb].
      set (w2 := png_step ROOT opened w entry).
      assert (Hdirs : dirs w2 = dirs w) by reflexivity.
      destruct (IH w2) as (w' & Hrun & Hd' & Hl' & Hf'); [| |exact Hall|].
      { now apply ready_png_step_logo. }
      { now rewrite (is_dir_dirs _ w w2 Hdirs). }
      exists w'. split.
      { etransitivity; [exact Hrun|].
        now rewrite (out_blocked_dirs w w2 _ (fun name => is_dir_dirs _ w w2 Hdirs)). }
      split; [congruence|]. split; [exact Hl'|].
      rewrite Hf'.
      exact (write_outputs_dirs _ w w2 _ (fun name => is_dir_dirs _ w w2 Hdirs)).
Qed.

Lemma decoded_many_logo opened (sizes : list Z) : forall w,
  logo_image ROOT w = Some opened ->
  logo_image ROOT (fold_left (fun w _ => decoded ROOT w) sizes w) = Some opened
  /\ dirs (fold_left (fun w _ => decoded ROOT w) sizes w) = dirs w
  /\ files (fold_left (fun w _ => decoded ROOT w) sizes w) = files w.
Proof.
  induction sizes as [|s sizes IH]; intros w Hl; [easy|].
  cbn [fold_left]. destruct (IH (decoded ROOT w) Hl) as (A & B & C). easy.
Qed.

Lemma ico_comprehension_logo opened sizes : forall w,
  logo_image ROOT w = Some opened ->
  Forall (fun s => 0 <= s < 65536) sizes ->
  map_M (generate_icon ROOT) sizes w
  = (Ok (map (icon opened) sizes), fold_left (fun w _ => decoded ROOT w) sizes w).
Proof.
  induction sizes as [|s sizes IH]; intros w Hl Hall; [reflexivity|].
  apply Forall_cons in Hall as [Hs Hall].
  cbn [map_M fold_left map].
  rewrite (bind_ok _ _ _ _ _ (generate_icon_ok _ _ _ _ Hs Hl)).
  rewrite (bind_ok _ _ _ _ _ (IH (decoded ROOT w) Hl Hall)).
  reflexivity.
Qed.

Lemma png_sizes_in_range :
  Forall (fun entry : string * Z => 0 <= snd entry < 65536) png_sizes.
Proof. unfold png_sizes. repeat (apply Forall_cons; split; [cbn; lia|]). constructor. Qed.

(** The run from a world in which the logo is readable and the icons
    directory has just been made: the outputs are written in order up to
    the first whose path is a directory. *)
Lemma run_effect_after_mkdir opened w w1 :
  Path_mkdir (ICONS_DIR ROOT) w = (Ok tt, w1) ->
  logo_image ROOT w1 = Some opened ->
  is_dir (ICONS_DIR ROOT) w1 = true ->
  exists w',
    main ROOT w
    = (if existsb (out_blocked ROOT w1) (outputs opened)
       then Raise IsADirectoryError else Ok tt, w')
    /\ dirs w' = dirs w1
    /\ files w' = write_outputs ROOT (outputs opened) w1 (files w1).
Proof.
  intros Hmk Hl Hd. unfold main.
  rewrite (bind_ok _ _ _ _ _ Hmk).
  destruct (png_loop_effect opened png_sizes w1 Hl Hd png_sizes_in_range)
    as (w2 & Hloop & Hd2 & Hl2 & Hf2).
  unfold outputs. rewrite write_outputs_app, existsb_app.
  rewrite (bind_run _ _ _ _ Hloop).
  destruct (existsb (out_blocked ROOT w1) (map (png_out opened) png_sizes)) eqn:Hpng.
  { exists w2. cbn [orb]. easy. }
  cbn [orb].
  rewrite (bind_ok _ _ _ _ _
             (ico_comprehension_logo opened ico_sizes w2 Hl2 ico_sizes_supported)).
  destruct (decoded_many_logo opened ico_sizes w2 Hl2) as (Hl3 & Hd3 & Hf3).
  set (w3 := fold_left (fun w _ => decoded ROOT w) ico_sizes w2) in *.
  assert (Hdir3 : forall p, is_dir p w3 = is_dir p w1)
    by (intros p; apply is_dir_dirs; congruence).
  cbn [ico_sizes map].
  erewrite bind_run
    by (apply Image_save_run; cbn [tail child]; now rewrite Hdir3).
  cbn [write_outputs existsb]. unfold out_blocked. cbn [fst snd].
  rewrite (Hdir3 (ICONS_DIR ROOT // "icon.ico")).
  destruct (is_dir (ICONS_DIR ROOT // "icon.ico") w1) eqn:Hico.
  { exists w3. cbn [orb]. split; [reflexivity|]. split; congruence. }
  cbn [orb].
  erewrite bind_run by reflexivity. cbn [print emit].
  set (w4 := mkWorld _ _ _).
  assert (Hl4 : logo_image ROOT w4 = Some opened).
  { unfold logo_image in *. subst w4. cbn [files written].
    rewrite lookup_insert_ne by apply output_not_logo. exact Hl3. }
  rewrite (bind_ok _ _ _ _ _ (generate_icon_ok ROOT 512 w4 opened ltac:(lia) Hl4)).
  erewrite bind_run
    by (apply Image_save_run; cbn [tail child];
        change (is_dir (ICONS_DIR ROOT) w3 = true); now rewrite Hdir3).
  change (is_dir (ICONS_DIR ROOT // "icon.icns") (decoded ROOT w4))
    with (is_dir (ICONS_DIR ROOT // "icon.icns") w3).
  rewrite (Hdir3 (ICONS_DIR ROOT // "icon.icns")).
  destruct (is_dir (ICONS_DIR ROOT // "icon.icns") w1) eqn:Hicns.
  { eexists. split; [reflexivity|].
    cbn [dirs files decoded logged w4 written].
    split; [congruence|]. now rewrite Hf3, Hf2. }
  eexists. split; [reflexivity|].
  cbn [dirs files decoded logged w4 written].
  split; [congruence|]. now rewrite Hf3, Hf2.
Qed.

(** The effect of a run on the files, for every world in which the logo is
    readable and the icons directory can be made. *)
Lemma main_effect opened w :
  logo_image ROOT w = Some opened ->
  creatable (ICONS_DIR ROOT) w = true ->
  exists w',
    main ROOT w = (if blocked ROOT w then Raise IsADirectoryError else Ok tt, w')
    /\ files w' = write_outputs ROOT (outputs opened) w (files w).
Proof.
  intros Hl Hc.
  destruct (Path_mkdir_ok _ w Hc) as (w1 & Hmk & Hf & _ & Hd & Hmono & Honly & _).
  assert (Hl1 : logo_image ROOT w1 = Some opened)
    by (unfold logo_image in *; now rewrite Hf).
  assert (Hsame : forall name,
            is_dir (ICONS_DIR ROOT // name) w1 = is_dir (ICONS_DIR ROOT // name) w).
  { intros name. destruct (is_dir (ICONS_DIR ROOT // name) w) eqn:Hn.
    - now apply Hmono.
    - destruct (is_dir (ICONS_DIR ROOT // name) w1) eqn:Hn1; [|reflexivity].
      apply Honly in Hn1 as [Hn1|Hn1]; [congruence|].
      apply suffix_length in Hn1. cbn [child length] in Hn1. lia. }
  destruct (run_effect_after_mkdir opened w w1 Hmk Hl1 Hd) as (w' & Hrun & _ & Hfiles).
  exists w'. split.
  - rewrite Hrun, (out_blocked_dirs w w1 _ Hsame). reflexivity.
  - now rewrite Hfiles, Hf, (write_outputs_dirs _ w w1 _ Hsame).
Qed.

End Effect.

(** * Further properties of the script

    ** The composed icon *)

(** X: the two lengths of lines 29-30 stay in proportion. *)
Theorem radius_padding_bounds size r p :
  1 <= size < 65536 ->
  radius size = Ok r -> padding size = Ok p ->
  0 <= p <= r
  /\ 2 * r < size
  /\ (r = 0 <-> size <= 6)
  /\ (p = 0 <-> size <= 19)
  /\ 0 < size - 2 * p
  /\ 9 * size <= 10 * (size - 2 * p).
Proof.
  intros Hs Hr Hp.
  rewrite radius_floor in Hr by lia. rewrite padding_floor in Hp by lia.
  injection Hr as <-. injection Hp as <-.
  pose proof (Z.div_mod (size * 164) 1000 ltac:(lia)) as H1.
  pose proof (Z.mod_pos_bound (size * 164) 1000 ltac:(lia)) as H2.
  pose proof (Z.div_mod (size * 5) 100 ltac:(lia)) as H3.
  pose proof (Z.mod_pos_bound (size * 5) 100 ltac:(lia)) as H4.
  repeat split; lia.
Qed.

Section IconFacts.

Context {Pil : Pillow} {Laws : PillowLaws Pil}.

Lemma logo_resized_size opened size p :
  0 < size - 2 * p ->
  im_size (logo_resized opened size p) = (size - 2 * p, size - 2 * p).
Proof.
  intros H. unfold logo_resized, im_size. now rewrite resize_width, resize_height.
Qed.

Lemma logo_resized_mode opened size p :
  im_mode (logo_resized opened size p) = RGBA.
Proof. unfold logo_resized. now rewrite resize_mode, convert_mode. Qed.

Lemma in_logo_box opened size p x y :
  0 < size - 2 * p ->
  in_box (logo_resized opened size p) (p, p) x y
  <-> p <= x < size - p /\ p <= y < size - p.
Proof.
  intros H. unfold in_box. cbn [fst snd].
  pose proof (logo_resized_size opened size p H) as Hsz.
  injection Hsz as -> ->. lia.
Qed.

(** X: the logo is pasted centred and inside the canvas, and every pixel
    of the icon outside its box is the pixel of the background layer. *)
Theorem icon_border_is_background opened size r p x y b :
  1 <= size < 65536 ->
  radius size = Ok r -> padding size = Ok p ->
  0 <= x < size -> 0 <= y < size ->
  ~ (p <= x < size - p /\ p <= y < size - p) ->
  im_band (compose opened size r p) b x y = im_band (background size r) b x y.
Proof.
  intros Hs Hr Hp Hx Hy Hout.
  assert (Hpos : 0 < size - 2 * p).
  { rewrite padding_floor in Hp by lia. injection Hp as <-.
    pose proof (Z.mul_div_le (size * 5) 100 ltac:(lia)). lia. }
  unfold compose. apply paste_outside.
  now rewrite in_logo_box.
Qed.

(** X: inside the box the logo decides: where the resized logo is fully
    transparent the background layer shows, where it is fully opaque the
    logo's pixel replaces it. *)
Theorem icon_shows_logo_by_alpha opened size r p x y :
  1 <= size < 65536 ->
  radius size = Ok r -> padding size = Ok p ->
  p <= x < size - p -> p <= y < size - p ->
  let logo := logo_resized opened size p in
  (mask_value logo (x - p) (y - p) = 0 ->
   forall b, im_band (compose opened size r p) b x y
             = im_band (background size r) b x y)
  /\ (mask_value logo (x - p) (y - p) = 255 ->
      forall b, im_band (compose opened size r p) b x y
                = im_band logo b (x - p) (y - p)).
Proof.
  intros Hs Hr Hp Hx Hy logo.
  assert (Hp0 : 0 <= p /\ 0 < size - 2 * p).
  { rewrite padding_floor in Hp by lia. injection Hp as <-.
    pose proof (Z.mul_div_le (size * 5) 100 ltac:(lia)).
    split; [apply Z.div_pos|]; lia. }
  pose proof (background_size size r) as Hbg. injection Hbg as Hbw Hbh.
  assert (Hbox : in_box logo (p, p) x y) by (apply in_logo_box; lia).
  split; intros Hm b; unfold compose; fold logo.
  - apply paste_transparent; try reflexivity; try lia; assumption.
  - apply paste_opaque; try reflexivity; try lia; try assumption.
    unfold logo. now rewrite logo_resized_mode, background_mode.
Qed.

(** X: the corners of the finished icon, not only of its background
    layer, are fully transparent, whatever the logo: the corner square of
    side [s] lies in the border the logo never reaches when [s <= padding],
    and beyond the arc under the two bounds on [s]. *)
Theorem icon_corners_transparent opened size r p s x y :
  1 <= size < 65536 ->
  radius size = Ok r -> padding size = Ok p ->
  0 < r -> s <= p ->
  4 * s + 10 < 4 * r ->
  (4 * r + 1) ^ 2 <= 2 * (4 * r - 4 * s - 10) ^ 2 ->
  in_corner_square size s x y ->
  alpha (compose opened size r p) x y = 0.
Proof.
  intros Hs Hr Hp Hpos Hsp Hs1 Hs2 Hsq.
  destruct (radius_separate size r Hs Hr) as [_ Hsep].
  pose proof Hsq as (Hx & Hy & Hcx & Hcy).
  assert (Hpp : 0 < size - 2 * p).
  { rewrite padding_floor in Hp by lia. injection Hp as <-.
    pose proof (Z.mul_div_le (size * 5) 100 ltac:(lia)). lia. }
  unfold alpha, compose. rewrite paste_outside.
  - apply background_alpha_zero; try lia.
    apply (mask_corner_zero size r s); try lia. exact Hsq.
  - rewrite in_logo_box by exact Hpp. lia.
Qed.

(** X: away from the corners the background layer is the background
    colour, fully opaque. *)
Theorem background_interior_color size r s x y :
  1 <= size < 65536 ->
  radius size = Ok r -> 0 < r ->
  11 <= 4 * s ->
  2 * (4 * r - 4 * s + 11) ^ 2 <= (4 * r - 1) ^ 2 ->
  s <= x < size - s -> s <= y < size - s ->
  map (fun b => im_band (background size r) b x y) [0; 1; 2; 3]%nat
  = [30; 41; 59; 255].
Proof.
  intros Hs Hr Hpos Hs1 Hs2 Hx Hy.
  destruct (radius_separate size r Hs Hr) as [_ Hsep].
  assert (Hm : mask_value (rounded_rect_mask size r) x y = 255)
    by (apply (mask_interior_full size r s); lia).
  assert (Hb : forall b, im_band (background size r) b x y
                         = nth b (BG_COLOR ++ [255]) 0).
  { intros b. unfold background. rewrite paste_opaque.
    - cbn [Image_new im_band]. reflexivity.
    - reflexivity.
    - now rewrite rounded_rect_mask_size by lia.
    - cbn; lia.
    - cbn; lia.
    - unfold in_box; cbn; lia.
    - cbn [fst snd]. now rewrite !Z.sub_0_r. }
  cbn [map]. now rewrite !Hb.
Qed.

(** X: the mask of lines 16-24 is an ["L"] image of the requested size,
    zero in the corner squares beyond the arc and 255 away from the
    corners. *)
Theorem rounded_rect_mask_shape size r :
  0 < size -> 0 < r -> 8 * r < 4 * size - 2 ->
  im_mode (rounded_rect_mask size r) = L
  /\ im_size (rounded_rect_mask size r) = (size, size)
  /\ (forall s x y,
        4 * s + 10 < 4 * r -> (4 * r + 1) ^ 2 <= 2 * (4 * r - 4 * s - 10) ^ 2 ->
        in_corner_square size s x y ->
        im_band (rounded_rect_mask size r) 0%nat x y = 0)
  /\ (forall s x y,
        11 <= 4 * s -> 2 * (4 * r - 4 * s + 11) ^ 2 <= (4 * r - 1) ^ 2 ->
        s <= x < size - s -> s <= y < size - s ->
        im_band (rounded_rect_mask size r) 0%nat x y = 255).
Proof.
  intros Hs Hr Hsep.
  split; [apply rounded_rect_mask_mode|].
  split; [now apply rounded_rect_mask_size|].
  split.
  - intros s x y H1 H2 Hsq.
    pose proof (mask_corner_zero size r s x y Hs Hr Hsep H1 H2 Hsq) as Hm.
    unfold mask_value in Hm. now rewrite rounded_rect_mask_mode in Hm.
  - intros s x y H1 H2 Hx Hy.
    pose proof (mask_interior_full size r s x y Hs Hr Hsep H1 H2 Hx Hy) as Hm.
    unfold mask_value in Hm. now rewrite rounded_rect_mask_mode in Hm.
Qed.

End IconFacts.

(** ** The run as a whole *)

Lemma union_twice {V} (U m : gmap Path V) : U ∪ (U ∪ m) = U ∪ m.
Proof. now rewrite (assoc_L (∪)), (idemp_L (∪) U). Qed.

Lemma write_outputs_done {Pil : Pillow} ROOT done out rest w : forall m,
  existsb (out_blocked ROOT w) done = false ->
  out_blocked ROOT w out = true ->
  write_outputs ROOT (done ++ out :: rest) w m
  = fold_left (fun m d => <[ICONS_DIR ROOT // fst d := snd d]> m) done m.
Proof.
  induction done as [|d done IH]; intros m Hdone Hout.
  - cbn [app write_outputs fold_left]. unfold out_blocked in Hout. now rewrite Hout.
  - cbn [existsb] in Hdone. apply orb_false_iff in Hdone as [Hd Hdone].
    cbn [app write_outputs fold_left]. unfold out_blocked in Hd. rewrite Hd.
    now apply IH.
Qed.

Lemma fold_insert_other {Pil : Pillow} ROOT (done : list (string * list byte)) p :
  forall m : gmap Path (list byte),
  (forall d, In d done -> p <> ICONS_DIR ROOT // fst d) ->
  fold_left (fun m d => <[ICONS_DIR ROOT // fst d := snd d]> m) done m !! p = m !! p.
Proof.
  induction done as [|d done IH]; intros m Hp; [reflexivity|].
  cbn [fold_left]. rewrite IH by (intros d' Hd'; apply Hp; now right).
  apply lookup_insert_ne, not_eq_sym, Hp. now left.
Qed.

Lemma fold_insert_done {Pil : Pillow} ROOT (done : list (string * list byte)) :
  forall (m : gmap Path (list byte)) d,
  NoDup (map fst done) -> In d done ->
  fold_left (fun m d => <[ICONS_DIR ROOT // fst d := snd d]> m) done m
    !! (ICONS_DIR ROOT // fst d) = Some (snd d).
Proof.
  induction done as [|d0 done IH]; intros m d Hnd Hin; [destruct Hin|].
  cbn [map] in Hnd. apply NoDup_cons in Hnd as [Hfresh Hnd].
  cbn [fold_left]. destruct Hin as [->|Hin].
  - rewrite fold_insert_other; [apply lookup_insert_eq|].
    intros d' Hd' Heq. apply Hfresh. injection Heq as ->.
    apply list_elem_of_In, in_map, Hd'.
  - now apply IH.
Qed.

(** A regular file on the way: every component below it is missing. *)
Lemma mkdir_parents_blocked below : forall q w,
  q <> [] ->
  is_file q w = true -> is_dir q w = false ->
  (forall k, k <> [] -> k `suffix_of` below ->
             is_dir (k ++ q) w = false /\ is_file (k ++ q) w = false) ->
  mkdir_parents (below ++ q) w
  = (Raise (match below with [] => FileExistsError | _ => NotADirectoryError end), w).
Proof.
  induction below as [|a below IH]; intros q w Hq Hf Hd Hmiss.
  - destruct q as [|b q]; [congruence|].
    cbn [app mkdir_parents os_mkdir]. rewrite Hd, Hf. cbn [orb]. now rewrite Hd.
  - destruct (Hmiss (a :: below) ltac:(discriminate) ltac:(reflexivity)) as [Hd1 Hf1].
    assert (Hmiss' : forall k, k <> [] -> k `suffix_of` below ->
              is_dir (k ++ q) w = false /\ is_file (k ++ q) w = false)
      by (intros k Hk Hs; apply Hmiss; [exact Hk | now apply suffix_cons_r]).
    pose proof (IH q w Hq Hf Hd Hmiss') as Hrec.
    change ((a :: below) ++ q) with (a :: (below ++ q)) in *.
    cbn [mkdir_parents os_mkdir]. rewrite Hd1, Hf1. cbn [orb].
    destruct below as [|b below].
    + cbn [app] in *. rewrite Hd, Hf. now rewrite Hd1.
    + destruct (Hmiss' (b :: below) ltac:(discriminate) ltac:(reflexivity)) as [Hd2 Hf2].
      rewrite Hd2, Hf2. now rewrite Hrec.
Qed.

Section RunExtras.

Context {Pil : Pillow}.
Variable ROOT : Path.


(** X: whatever happens in a run, it alters no file other than its eight
    outputs, removes no file, and leaves the logo as it was. *)
Theorem run_touches_only_outputs w :
  (forall p,
     (forall name,
        In name ["32x32.png"; "64x64.png"; "128x128.png"; "128x128@2x.png";
                 "512x512.png"; "icon.png"; "icon.ico"; "icon.icns"] ->
        p <> ICONS_DIR ROOT // name) ->
     files (snd (main ROOT w)) !! p = files w !! p)
  /\ (forall p, is_Some (files w !! p) -> is_Some (files (snd (main ROOT w)) !! p))
  /\ files (snd (main ROOT w)) !! LOGO_PATH ROOT = files w !! LOGO_PATH ROOT.
Proof.
  split; [|split].
  - intros p Hp. apply (main_writes_only ROOT w p).
    intros (name & Hin & ->). exact (Hp name Hin eq_refl).
  - intros p. apply (main_writes_only ROOT w p).
  - apply (main_writes_only ROOT w (LOGO_PATH ROOT)).
    intros (name & _ & Heq). symmetry in Heq. now apply output_not_logo in Heq.
Qed.

(** X: whatever happens in a run, it removes no directory and makes none
    but the icons directory and its parents. *)
Theorem run_dirs_only_grow w q :
  (is_dir q w = true -> is_dir q (snd (main ROOT w)) = true)
  /\ (is_dir q (snd (main ROOT w)) = true ->
      is_dir q w = true \/ q `suffix_of` ICONS_DIR ROOT).
Proof. exact (main_grows_dirs ROOT w q). Qed.

(** X: where the icons directory can be made, the run returns normally
    exactly when the logo is readable and none of the eight output paths is
    a directory; with a readable logo and an output path that is a
    directory it raises IsADirectoryError. *)
Theorem run_succeeds_iff w :
  creatable (ICONS_DIR ROOT) w = true ->
  (fst (main ROOT w) = Ok tt
   <-> is_Some (logo_image ROOT w) /\ blocked ROOT w = false)
  /\ (is_Some (logo_image ROOT w) -> blocked ROOT w = true ->
      fst (main ROOT w) = Raise IsADirectoryError).
Proof.
  intros Hc. destruct (logo_image ROOT w) as [opened|] eqn:Hl.
  - destruct (main_effect ROOT opened w Hl Hc) as (w' & Hrun & _).
    rewrite Hrun. cbn [fst]. split.
    + destruct (blocked ROOT w); split;
        first [ discriminate
              | intros [_ H]; discriminate H
              | intros _; split; [now eexists | reflexivity]
              | reflexivity ].
    + now intros _ ->.
  - destruct (main_no_logo ROOT w Hl) as (e & w' & Hrun & _).
    rewrite Hrun. cbn [fst]. split.
    + split; [discriminate|]. intros [[x Hx] _]. discriminate Hx.
    + intros [x Hx]. discriminate Hx.
Qed.

(** X: there is no clean-up: when the first output path that is a directory
    is reached, the run raises IsADirectoryError, every output written before
    it holds its bytes, and no other file has changed. *)
Theorem outputs_before_failure_remain w opened done out rest :
  logo_image ROOT w = Some opened ->
  creatable (ICONS_DIR ROOT) w = true ->
  outputs opened = done ++ out :: rest ->
  existsb (out_blocked ROOT w) done = false ->
  out_blocked ROOT w out = true ->
  exists w',
    main ROOT w = (Raise IsADirectoryError, w')
    /\ (forall d, In d done -> files w' !! (ICONS_DIR ROOT // fst d) = Some (snd d))
    /\ (forall p, (forall d, In d done -> p <> ICONS_DIR ROOT // fst d) ->
                  files w' !! p = files w !! p).
Proof.
  intros Hl Hc Hsplit Hdone Hout.
  destruct (main_effect ROOT opened w Hl Hc) as (w' & Hrun & Hfiles).
  assert (Hb : blocked ROOT w = true).
  { change (existsb (out_blocked ROOT w) (outputs opened) = true).
    rewrite Hsplit, existsb_app. cbn [existsb]. rewrite Hout.
    now rewrite orb_true_r. }
  rewrite Hb in Hrun. exists w'. split; [exact Hrun|].
  rewrite Hsplit, (write_outputs_done ROOT done out rest w _ Hdone Hout) in Hfiles.
  assert (Hnd : NoDup (map fst done)).
  { assert (Hall : NoDup (map fst (outputs opened))).
    { change (NoDup ["32x32.png"; "64x64.png"; "128x128.png"; "128x128@2x.png";
                     "512x512.png"; "icon.png"; "icon.ico"; "icon.icns"]).
      compute_done. }
    rewrite Hsplit, map_app in Hall. now apply NoDup_app in Hall as [Hall _]. }
  rewrite Hfiles. split.
  - intros d Hd. now apply fold_insert_done.
  - intros p Hp. now apply fold_insert_other.
Qed.

(** X: a regular file on the way to the icons directory (the directory's
    own path or a parent's, everything below it missing) stops the run at
    its first step: it raises FileExistsError or NotADirectoryError, the logo is
    never opened, and files and directories stay as they were. *)
Theorem regular_file_blocks_mkdir w below q :
  ICONS_DIR ROOT = below ++ q -> q <> [] ->
  is_file q w = true -> is_dir q w = false ->
  (forall k, k <> [] -> k `suffix_of` below ->
             is_dir (k ++ q) w = false /\ is_file (k ++ q) w = false) ->
  main ROOT w
  = (Raise (match below with [] => FileExistsError | _ => NotADirectoryError end),
     logged (EMkdir (ICONS_DIR ROOT)) w).
Proof.
  intros Hsplit Hq Hf Hd Hmiss.
  pose proof (mkdir_parents_blocked below q (logged (EMkdir (ICONS_DIR ROOT)) w)
                Hq Hf Hd Hmiss) as Hrun.
  rewrite <- Hsplit in Hrun.
  unfold main, Path_mkdir.
  apply bind_raise. erewrite bind_ok by reflexivity. exact Hrun.
Qed.



(** X: a successful run prints these nine lines, in this order, and
    nothing else. *)
Theorem run_prints_progress w opened :
  logo_image ROOT w = Some opened ->
  writable ROOT w = true ->
  exists w' later,
    main ROOT w = (Ok tt, w')
    /\ log w' = later ++ log w
    /\ printed later
       = [ "Generated 32x32.png (32x32)";
           "Generated 64x64.png (64x64)";
           "Generated 128x128.png (128x128)";
           "Generated 128x128@2x.png (256x256)";
           "Generated 512x512.png (512x512)";
           "Generated icon.png (512x512)";
           "Generated icon.ico (256x256, 64x64, 48x48, 32x32, 24x24, 16x16)";
           "Generated icon.icns";
           String (Ascii.ascii_of_nat 10) "Done!" ].
Proof.
  intros Hl Hw.
  destruct (main_ok ROOT w opened Hl Hw) as (w1 & _ & _ & Hlog & Hrun).
  eexists _, _. split; [exact Hrun|]. split.
  { rewrite after_run_log, Hlog.
    rewrite (app_assoc _ [EMkdir (ICONS_DIR ROOT)] (log w)). reflexivity. }
  unfold printed. rewrite rev_app_distr, rev_involutive. vm_compute. reflexivity.
Qed.

(** X: a successful run saves eight files, in this order: the six PNG files,
    the ICO, and last the ICNS, made from the same 512-pixel composite as
    [icon.png]; each progress line follows the save it reports. *)
Theorem run_saves_in_order w opened :
  logo_image ROOT w = Some opened ->
  writable ROOT w = true ->
  exists w' later,
    main ROOT w = (Ok tt, w')
    /\ log w' = later ++ log w
    /\ List.filter (fun e => negb (is_open e)) (rev later)
       = [ EMkdir (ICONS_DIR ROOT);
           ESave (ICONS_DIR ROOT // "32x32.png") PNG (icon opened 32) [] [];
           EPrint (png_line ("32x32.png", 32));
           ESave (ICONS_DIR ROOT // "64x64.png") PNG (icon opened 64) [] [];
           EPrint (png_line ("64x64.png", 64));
           ESave (ICONS_DIR ROOT // "128x128.png") PNG (icon opened 128) [] [];
           EPrint (png_line ("128x128.png", 128));
           ESave (ICONS_DIR ROOT // "128x128@2x.png") PNG (icon opened 256) [] [];
           EPrint (png_line ("128x128@2x.png", 256));
           ESave (ICONS_DIR ROOT // "512x512.png") PNG (icon opened 512) [] [];
           EPrint (png_line ("512x512.png", 512));
           ESave (ICONS_DIR ROOT // "icon.png") PNG (icon opened 512) [] [];
           EPrint (png_line ("icon.png", 512));
           ico_save ROOT opened;
           EPrint ico_line;
           ESave (ICONS_DIR ROOT // "icon.icns") ICNS (icon opened 512) [] [];
           EPrint "Generated icon.icns";
           EPrint (String (Ascii.ascii_of_nat 10) "Done!") ]
    /\ files w' !! (ICONS_DIR ROOT // "icon.icns") = Some (encode ICNS [icon opened 512]).
Proof.
  intros Hl Hw.
  destruct (main_ok ROOT w opened Hl Hw) as (w1 & _ & _ & Hlog & Hrun).
  eexists _, _. split; [exact Hrun|]. split.
  { rewrite after_run_log, Hlog.
    rewrite (app_assoc _ [EMkdir (ICONS_DIR ROOT)] (log w)). reflexivity. }
  split.
  - rewrite rev_app_distr, rev_involutive. reflexivity.
  - rewrite after_run_files. apply lookup_insert_eq.
Qed.

Lemma after_run_files_union opened w :
  files (after_run ROOT opened w)
  = files (after_run ROOT opened (mkWorld ∅ ∅ [])) ∪ files w.
Proof.
  rewrite !after_run_files. cbn [files].
  rewrite <- (left_id_L ∅ (∪) (files w)) at 1.
  now rewrite !insert_union_l.
Qed.

(** X: running again changes no file: a second run right after a
    successful one succeeds and leaves every file with the bytes it had. *)
Theorem rerun_changes_no_file w opened :
  logo_image ROOT w = Some opened ->
  writable ROOT w = true ->
  fst (main ROOT (snd (main ROOT w))) = Ok tt
  /\ files (snd (main ROOT (snd (main ROOT w)))) = files (snd (main ROOT w)).
Proof.
  intros Hl Hw.
  destruct (rerun_ready ROOT w opened Hl Hw) as [Hlogo Hw2].
  set (v := snd (main ROOT w)) in *.
  assert (Hl2 : logo_image ROOT v = Some opened)
    by (unfold logo_image in *; now rewrite Hlogo).
  destruct (main_ok ROOT w opened Hl Hw) as (w1 & _ & _ & _ & Hrun).
  destruct (main_ok ROOT v opened Hl2 Hw2) as (v1 & _ & Hf & _ & Hrun2).
  rewrite Hrun2. cbn [fst snd]. split; [reflexivity|].
  rewrite after_run_files_union, Hf. subst v. rewrite Hrun. cbn [snd].
  rewrite (after_run_files_union opened w1).
  apply union_twice.
Qed.

End RunExtras.

(** * The further properties on the reference checkout *)

Module More.

Import Reference.

Lemma radius_padding_bounds_witness :
  radius 512 = Ok 83 /\ padding 512 = Ok 25
  /\ 0 <= 25 <= 83 /\ 2 * 83 < 512 /\ 0 < 512 - 2 * 25.
Proof.
  assert (Hr : radius 512 = Ok 83) by (vm_compute; reflexivity).
  assert (Hp : padding 512 = Ok 25) by (vm_compute; reflexivity).
  split; [exact Hr|]. split; [exact Hp|].
  destruct (radius_padding_bounds 512 83 25 ltac:(lia) Hr Hp) as (A & B & _ & _ & C & _).
  auto.
Defined.

Lemma icon_border_is_background_witness :
  im_band (compose logo 512 83 25) 3%nat 3 100
  = im_band (background 512 83) 3%nat 3 100.
Proof.
  apply (icon_border_is_background (Laws := ReferenceLaws.laws) logo 512 83 25 3 100 3%nat);
    [lia | vm_compute; reflexivity | vm_compute; reflexivity | lia | lia | lia].
Defined.

Lemma icon_shows_logo_by_alpha_witness :
  mask_value (logo_resized logo 512 25) (100 - 25) (100 - 25) = 255
  /\ forall b, im_band (compose logo 512 83 25) b 100 100
               = im_band (logo_resized logo 512 25) b (100 - 25) (100 - 25).
Proof.
  assert (Hm : mask_value (logo_resized logo 512 25) (100 - 25) (100 - 25) = 255)
    by (vm_compute; reflexivity).
  split; [exact Hm|].
  apply (icon_shows_logo_by_alpha (Laws := ReferenceLaws.laws) logo 512 83 25 100 100);
    [lia | vm_compute; reflexivity | vm_compute; reflexivity | lia | lia | exact Hm].
Defined.

Lemma icon_corners_transparent_witness :
  in_corner_square 512 21 20 491
  /\ alpha (compose logo 512 83 25) 20 491 = 0.
Proof.
  assert (Hsq : in_corner_square 512 21 20 491) by (unfold in_corner_square; lia).
  split; [exact Hsq|].
  apply (icon_corners_transparent (Laws := ReferenceLaws.laws) logo 512 83 25 21 20 491);
    [lia | vm_compute; reflexivity | vm_compute; reflexivity | lia | lia | lia | lia
     | exact Hsq].
Defined.

Lemma background_interior_color_witness :
  map (fun b => im_band (background 512 83) b 40 40) [0; 1; 2; 3]%nat
  = [30; 41; 59; 255].
Proof.
  apply (background_interior_color (Laws := ReferenceLaws.laws) 512 83 28 40 40);
    [lia | vm_compute; reflexivity | lia | lia | lia | lia | lia].
Defined.

Lemma rounded_rect_mask_shape_witness :
  im_mode (rounded_rect_mask 512 83) = L
  /\ im_size (rounded_rect_mask 512 83) = (512, 512)
  /\ im_band (rounded_rect_mask 512 83) 0%nat 20 20 = 0
  /\ im_band (rounded_rect_mask 512 83) 0%nat 256 40 = 255.
Proof.
  destruct (rounded_rect_mask_shape (Laws := ReferenceLaws.laws) 512 83
              ltac:(lia) ltac:(lia) ltac:(lia)) as (Hm & Hs & Hzero & Hfull).
  split; [exact Hm|]. split; [exact Hs|]. split.
  - apply (Hzero 21); [lia | lia | unfold in_corner_square; lia].
  - apply (Hfull 28); lia.
Defined.

Lemma run_touches_only_outputs_witness :
  files (snd (main root stale_checkout)) !! LOGO_PATH root = Some logo_bytes.
Proof.
  destruct (run_touches_only_outputs root stale_checkout) as (_ & _ & Hlogo).
  rewrite Hlogo. vm_compute. reflexivity.
Defined.

Lemma run_dirs_only_grow_witness :
  is_dir (root // "assets") (snd (main root bare_checkout)) = true.
Proof.
  apply (run_dirs_only_grow root bare_checkout (root // "assets")).
  vm_compute. reflexivity.
Defined.

Lemma blocked_logo : logo_image root blocked_checkout = Some logo.
Proof. vm_compute. reflexivity. Defined.

Lemma blocked_creatable : creatable (ICONS_DIR root) blocked_checkout = true.
Proof. vm_compute. reflexivity. Defined.

Lemma run_succeeds_iff_witness :
  creatable (ICONS_DIR root) blocked_checkout = true
  /\ blocked root blocked_checkout = true
  /\ fst (main root blocked_checkout) = Raise IsADirectoryError.
Proof.
  assert (Hb : blocked root blocked_checkout = true) by (vm_compute; reflexivity).
  split; [exact blocked_creatable|]. split; [exact Hb|].
  apply (run_succeeds_iff root blocked_checkout blocked_creatable);
    [rewrite blocked_logo; now eexists | exact Hb].
Defined.

Lemma outputs_before_failure_remain_witness :
  exists w',
    main root blocked_checkout = (Raise IsADirectoryError, w')
    /\ files w' !! (ICONS_DIR root // "32x32.png") = Some (encode PNG [icon logo 32])
    /\ files w' !! (ICONS_DIR root // "64x64.png") = None.
Proof.
  destruct (outputs_before_failure_remain root blocked_checkout logo
              [png_out logo ("32x32.png", 32)]
              (png_out logo ("64x64.png", 64))
              (skipn 2 (outputs logo))
              blocked_logo blocked_creatable eq_refl
              ltac:(vm_compute; reflexivity) ltac:(vm_compute; reflexivity))
    as (w' & Hrun & Hdone & Hother).
  exists w'. split; [exact Hrun|]. split.
  - apply (Hdone (png_out logo ("32x32.png", 32))). now left.
  - rewrite Hother.
    + vm_compute. reflexivity.
    + intros d [<-|[]]. cbn [png_out fst]. unfold child. congruence.
Defined.

Lemma regular_file_blocks_mkdir_witness :
  main root file_in_the_way
  = (Raise NotADirectoryError, logged (EMkdir (ICONS_DIR root)) file_in_the_way).
Proof.
  apply (regular_file_blocks_mkdir root file_in_the_way ["icons"] (root // "src-tauri"));
    [reflexivity | discriminate | vm_compute; reflexivity | vm_compute; reflexivity|].
  intros k Hk Hs. apply suffix_cons_cases in Hs as [->|Hs].
  - split; vm_compute; reflexivity.
  - apply suffix_nil_inv in Hs. congruence.
Defined.


Lemma run_prints_progress_witness :
  exists w' later,
    main root checkout = (Ok tt, w')
    /\ log w' = later ++ log checkout
    /\ length (printed later) = 9%nat.
Proof.
  destruct (run_prints_progress root checkout logo Witness.checkout_logo Witness.checkout_writable)
    as (w' & later & Hrun & Hlog & Hlines).
  exists w', later. split; [exact Hrun|]. split; [exact Hlog|]. now rewrite Hlines.
Defined.

Lemma run_saves_in_order_witness :
  exists w',
    main root checkout = (Ok tt, w')
    /\ files w' !! (ICONS_DIR root // "icon.icns") = Some (encode ICNS [icon logo 512]).
Proof.
  destruct (run_saves_in_order root checkout logo Witness.checkout_logo Witness.checkout_writable)
    as (w' & later & Hrun & _ & _ & Hicns).
  exists w'. split; [exact Hrun | exact Hicns].
Defined.

Lemma rerun_changes_no_file_witness :
  fst (main root (snd (main root checkout))) = Ok tt
  /\ files (snd (main root (snd (main root checkout)))) = files (snd (main root checkout)).
Proof.
  apply (rerun_changes_no_file root checkout logo
           Witness.checkout_logo Witness.checkout_writable).
Defined.

End More.
